(** * deno-keyv: the SQLite and PostgreSQL key-value providers

    A shallow embedding of [src/SqliteProvider.ts] and
    [src/PostgresProvider.ts].  Both classes keep an in-memory [Collection]
    (a JavaScript [Map] from root key to document) in front of a SQL table of
    [(key, value)] rows whose [value] column holds [JSON.stringify] of the
    document.

    JavaScript objects and arrays are mutable and passed by reference, and the
    providers rely on it ([_.set] mutates the cached document in place,
    [push] appends to the cached array), so documents live in an explicit
    heap and a value is either a primitive or a reference into it. *)

From Stdlib Require Import String Ascii ZArith DecimalString.
From stdpp Require Import gmap strings list.

Set Warnings "-register-all".

Local Open Scope string_scope.
Local Open Scope list_scope.
Local Open Scope Z_scope.

(** ** JavaScript values *)

Inductive jsvalue : Type :=
| VUndefined
| VNull
| VBool (b : bool)
| VNum (n : Z)
| VStr (s : string)
| VRef (l : nat).

(** A heap cell: an array (indexed elements plus named own properties) or a
    plain object (own properties in enumeration order). *)
Inductive object : Type :=
| OArr (elems : list jsvalue) (props : list (string * jsvalue))
| OObj (props : list (string * jsvalue)).

Module JS.

(** [!!v] *)
Definition truthy (v : jsvalue) : bool :=
  match v with
  | VUndefined | VNull => false
  | VBool b => b
  | VNum n => negb (n =? 0)
  | VStr s => negb (String.eqb s "")
  | VRef _ => true
  end.

(** [v == null] *)
Definition nullish (v : jsvalue) : bool :=
  match v with VUndefined | VNull => true | _ => false end.

(** [a || b] on already evaluated operands. *)
Definition or (a b : jsvalue) : jsvalue := if truthy a then a else b.

(** [s.includes(c)] for a one-character needle. *)
Fixpoint includes (c : ascii) (s : string) : bool :=
  match s with
  | EmptyString => false
  | String d s' => if Ascii.eqb d c then true else includes c s'
  end.

(** [s.split(c)] for a one-character separator: never empty. *)
Fixpoint split (c : ascii) (s : string) : list string :=
  match s with
  | EmptyString => [EmptyString]
  | String d s' =>
      if Ascii.eqb d c then EmptyString :: split c s'
      else match split c s' with
           | seg :: segs => String d seg :: segs
           | [] => [String d EmptyString]
           end
  end.

(** [segs.join(c)] *)
Definition join (c : ascii) (segs : list string) : string :=
  String.concat (String c EmptyString) segs.

(** [Number.prototype.toString] on an integer. *)
Definition string_of_Z (n : Z) : string := NilZero.string_of_int (Z.to_int n).

Definition is_digit (c : ascii) : bool :=
  let n := nat_of_ascii c in (48 <=? n)%nat && (n <=? 57)%nat.

Fixpoint digits_value (acc : N) (s : string) : option N :=
  match s with
  | EmptyString => Some acc
  | String c s' =>
      if is_digit c
      then digits_value (acc * 10 + N.of_nat (nat_of_ascii c - 48))%N s'
      else None
  end.

(** A canonical non-negative decimal (a single zero, or digits that do not
    start with zero) and its value. *)
Definition canonical_uint (k : string) : option N :=
  match k with
  | EmptyString => None
  | String "0" EmptyString => Some 0%N
  | String "0" _ => None
  | _ => digits_value 0%N k
  end.

(** The array index a property name stands for: a canonical decimal below
    [2^32 - 1]. *)
Definition index_of_key (k : string) : option nat :=
  match canonical_uint k with
  | Some n => if (n <? 4294967295)%N then Some (N.to_nat n) else None
  | None => None
  end.

End JS.

(** ** The heap of objects and arrays

    Scope of the model.  Objects are modelled by their own properties; names
    of built-in members ([length], [__proto__], [constructor], methods of the
    prototypes) are not treated specially, so keys are assumed not to use
    them.  Numbers are integers.  Array holes are [undefined] elements. *)

Abbreviation heap := (list object).

Definition alloc (o : object) (h : heap) : jsvalue * heap :=
  (VRef (List.length h), h ++ [o]).

Fixpoint props_lookup (k : string) (ps : list (string * jsvalue)) : option jsvalue :=
  match ps with
  | [] => None
  | (k', v) :: ps' => if String.eqb k' k then Some v else props_lookup k ps'
  end.

Fixpoint props_replace (k : string) (v : jsvalue) (ps : list (string * jsvalue))
  : list (string * jsvalue) :=
  match ps with
  | [] => []
  | (k', v') :: ps' =>
      if String.eqb k' k then (k', v) :: ps' else (k', v') :: props_replace k v ps'
  end.

(** A new integer-like key of a plain object is enumerated before every
    string key and in ascending order among the integer-like ones. *)
Fixpoint props_insert_index (i : nat) (k : string) (v : jsvalue)
    (ps : list (string * jsvalue)) : list (string * jsvalue) :=
  match ps with
  | [] => [(k, v)]
  | (k', v') :: ps' =>
      match JS.index_of_key k' with
      | Some j => if (j <? i)%nat then (k', v') :: props_insert_index i k v ps'
                  else (k, v) :: ps
      | None => (k, v) :: ps
      end
  end.

Definition props_set (ordered : bool) (k : string) (v : jsvalue)
    (ps : list (string * jsvalue)) : list (string * jsvalue) :=
  match props_lookup k ps with
  | Some _ => props_replace k v ps
  | None =>
      match JS.index_of_key k with
      | Some i => if ordered then props_insert_index i k v ps else ps ++ [(k, v)]
      | None => ps ++ [(k, v)]
      end
  end.

(** [s[i]] on a string primitive: the one-character string at [i]. *)
Definition string_at (s : string) (i : nat) : option jsvalue :=
  (fun c => VStr (String c EmptyString)) <$> String.get i s.

(** [object[key]] for a non-nullish [object]. *)
Definition get_prop (h : heap) (object : jsvalue) (key : string) : jsvalue :=
  match object with
  | VRef l =>
      match h !! l with
      | Some (OObj ps) => default VUndefined (props_lookup key ps)
      | Some (OArr es ps) =>
          match JS.index_of_key key with
          | Some i => default VUndefined (es !! i)
          | None => default VUndefined (props_lookup key ps)
          end
      | None => VUndefined
      end
  | VStr s =>
      match JS.index_of_key key with
      | Some i => default VUndefined (string_at s i)
      | None => VUndefined
      end
  | _ => VUndefined
  end.

(** [key in Object(object)], which for own properties is also
    [hasOwnProperty.call(object, key)]. *)
Definition has_prop (h : heap) (object : jsvalue) (key : string) : bool :=
  match object with
  | VRef l =>
      match h !! l with
      | Some (OObj ps) => bool_decide (is_Some (props_lookup key ps))
      | Some (OArr es ps) =>
          match JS.index_of_key key with
          | Some i => (i <? List.length es)%nat
          | None => bool_decide (is_Some (props_lookup key ps))
          end
      | None => false
      end
  | VStr s =>
      match JS.index_of_key key with
      | Some i => (i <? String.length s)%nat
      | None => false
      end
  | _ => false
  end.

(** [arr[i] = v]: in range it overwrites, past the end it grows the array. *)
Definition elems_set (i : nat) (v : jsvalue) (es : list jsvalue) : list jsvalue :=
  if (i <? List.length es)%nat then <[i:=v]> es
  else es ++ replicate (i - List.length es) VUndefined ++ [v].

(** [object[key] = v] for a heap object. *)
Definition set_prop (h : heap) (l : nat) (key : string) (v : jsvalue) : heap :=
  match h !! l with
  | Some (OObj ps) => <[l := OObj (props_set true key v ps)]> h
  | Some (OArr es ps) =>
      match JS.index_of_key key with
      | Some i => <[l := OArr (elems_set i v es) ps]> h
      | None => <[l := OArr es (props_set false key v ps)]> h
      end
  | None => h
  end.

(** [arr.push(v)] *)
Definition array_push (h : heap) (arr : jsvalue) (v : jsvalue) : heap :=
  match arr with
  | VRef l =>
      match h !! l with
      | Some (OArr es ps) => <[l := OArr (es ++ [v]) ps]> h
      | _ => h
      end
  | _ => h
  end.

(** ** lodash: [_.get], [_.set], [_.has]

    Modelled from the spec: [_] is imported through [deps.ts], which is not
    among the sources.  It is lodash, and the spec's Path Resolver
    ([resolveGet], [resolveSet], [resolveHas]) is its [get], [set] and [has]:
    a missing or non-object step reads as not found, [set] creates the
    missing intermediate objects and never throws, [has] asks for own
    properties along the same walk.  What the spec leaves open follows
    lodash 4.17: [set] returns a primitive document unchanged, a path given
    as a string is one key when it has no dot or names a property of the
    document, and an undefined result of [get] is replaced by the default.
    Property strings are taken without the bracket syntax [a[0]]; for those
    a string is a deep path exactly when it contains a dot, and
    [stringToPath] yields its dot-separated segments. *)

Module Lodash.

(** A path argument: an array of keys, or a string. *)
Inductive path : Type :=
| PArr (segs : list string)
| PStr (s : string).

Definition isObject (v : jsvalue) : bool :=
  match v with VRef _ => true | _ => false end.

Definition isArray (h : heap) (v : jsvalue) : bool :=
  match v with
  | VRef l => match h !! l with Some (OArr _ _) => true | _ => false end
  | _ => false
  end.

(** [isIndex(key)]: a canonical decimal below [Number.MAX_SAFE_INTEGER]. *)
Definition isIndex (key : string) : bool :=
  match JS.canonical_uint key with
  | Some n => (n <? 9007199254740991)%N
  | None => false
  end.

Definition stringToPath (s : string) : list string := JS.split "." s.

Definition isKey (h : heap) (s : string) (object : jsvalue) : bool :=
  negb (JS.includes "." s)
  || (negb (JS.nullish object) && has_prop h object s).

Definition castPath (h : heap) (p : path) (object : jsvalue) : list string :=
  match p with
  | PArr segs => segs
  | PStr s => if isKey h s object then [s] else stringToPath s
  end.

Fixpoint baseGet_loop (h : heap) (object : jsvalue) (keys : list string) : jsvalue :=
  match keys with
  | [] => object
  | k :: keys' =>
      if JS.nullish object then VUndefined
      else baseGet_loop h (get_prop h object k) keys'
  end.

Definition baseGet (h : heap) (object : jsvalue) (p : path) : jsvalue :=
  match castPath h p object with
  | [] => VUndefined
  | keys => baseGet_loop h object keys
  end.

(** [_.get(object, path, defaultValue)] *)
Definition get (h : heap) (object : jsvalue) (p : path) (defaultValue : jsvalue)
  : jsvalue :=
  let result := if JS.nullish object then VUndefined else baseGet h object p in
  match result with VUndefined => defaultValue | _ => result end.

(** The loop of [baseSet]: [nested] is the object being descended into. *)
Fixpoint baseSet_loop (h : heap) (nested : nat) (keys : list string)
    (v : jsvalue) : heap :=
  match keys with
  | [] => h
  | [key] => set_prop h nested key v
  | key :: (next :: _) as keys' =>
      let objValue := get_prop h (VRef nested) key in
      let '(newValue, h1) :=
        if isObject objValue then (objValue, h)
        else alloc (if isIndex next then OArr [] [] else OObj []) h in
      let h2 := set_prop h1 nested key newValue in
      match get_prop h2 (VRef nested) key with
      | VRef l' => baseSet_loop h2 l' keys' v
      | _ => h2
      end
  end.

(** [_.set(object, path, value)]: mutates [object] in the heap and returns
    it; a primitive [object] is returned as it is. *)
Definition set (h : heap) (object : jsvalue) (p : path) (v : jsvalue)
  : jsvalue * heap :=
  match object with
  | VRef l => (object, baseSet_loop h l (castPath h p object) v)
  | _ => (object, h)
  end.

Fixpoint hasPath_loop (h : heap) (object : jsvalue) (keys : list string) : bool :=
  match keys with
  | [] => true
  | k :: keys' =>
      negb (JS.nullish object) && has_prop h object k
      && hasPath_loop h (get_prop h object k) keys'
  end.

(** [_.has(object, path)] *)
Definition has (h : heap) (object : jsvalue) (p : path) : bool :=
  negb (JS.nullish object)
  && match castPath h p object with
     | [] => false
     | keys => hasPath_loop h object keys
     end.

End Lodash.

(** ** Exceptions *)

Inductive exn : Type :=
| TypeError      (* JSON.stringify on a circular structure *)
| SyntaxError.   (* JSON.parse on text that is not JSON *)

Inductive res (A : Type) : Type :=
| Ok (a : A)
| Throw (e : exn).
Arguments Ok {A} a.
Arguments Throw {A} e.

(** ** JSON.stringify and JSON.parse *)

Module JSON.

(** The syntax trees of JSON texts (numbers: integers). *)
Inductive json : Type :=
| JNull
| JBool (b : bool)
| JNum (n : Z)
| JStr (s : string)
| JArr (items : list json)
| JObj (fields : list (string * json)).

Definition quote_char : ascii := ascii_of_nat 34.
Definition backslash : ascii := ascii_of_nat 92.

Definition hex_digit (n : nat) : ascii :=
  ascii_of_nat (if (n <? 10)%nat then 48 + n else 87 + n).

Definition escape_char (c : ascii) : string :=
  let n := nat_of_ascii c in
  let esc (d : ascii) := String backslash (String d EmptyString) in
  if (n =? 34)%nat then esc quote_char
  else if (n =? 92)%nat then esc backslash
  else if (n =? 8)%nat then esc "b"%char
  else if (n =? 9)%nat then esc "t"%char
  else if (n =? 10)%nat then esc "n"%char
  else if (n =? 12)%nat then esc "f"%char
  else if (n =? 13)%nat then esc "r"%char
  else if (n <? 32)%nat then
    String backslash
      (String "u"%char (String "0"%char (String "0"%char
        (String (hex_digit (n / 16)) (String (hex_digit (n mod 16)) EmptyString)))))
  else String c EmptyString.

Fixpoint escape (s : string) : string :=
  match s with
  | EmptyString => EmptyString
  | String c s' => escape_char c +:+ escape s'
  end.

Definition quote (s : string) : string :=
  String quote_char (escape s +:+ String quote_char EmptyString).

(** The text of a tree, without white space, as [JSON.stringify] prints. *)
Fixpoint print (j : json) : string :=
  match j with
  | JNull => "null"
  | JBool true => "true"
  | JBool false => "false"
  | JNum n => JS.string_of_Z n
  | JStr s => quote s
  | JArr items =>
      "[" +:+
      (fix items_text (js : list json) : string :=
         match js with
         | [] => EmptyString
         | j' :: js' =>
             print j' +:+
             match js' with [] => EmptyString | _ => "," +:+ items_text js' end
         end) items
      +:+ "]"
  | JObj fields =>
      "{" +:+
      (fix fields_text (fs : list (string * json)) : string :=
         match fs with
         | [] => EmptyString
         | (k, j') :: fs' =>
             quote k +:+ ":" +:+ print j' +:+
             match fs' with [] => EmptyString | _ => "," +:+ fields_text fs' end
         end) fields
      +:+ "}"
  end.

Fixpoint mapM {A B : Type} (f : A -> res B) (l : list A) : res (list B) :=
  match l with
  | [] => Ok []
  | a :: l' =>
      match f a with
      | Throw e => Throw e
      | Ok b => match mapM f l' with
                | Throw e => Throw e
                | Ok bs => Ok (b :: bs)
                end
      end
  end.

(** The tree [JSON.stringify] serialises for [v]: [None] is JavaScript's
    [undefined] (nothing to serialise).  [stack] holds the objects being
    serialised; meeting one again is a circular structure.  An [undefined]
    array element prints as [null], an [undefined] property is left out,
    and the named properties of an array are not serialised.  The stack
    cannot grow past the heap, so [length h + 1] is enough fuel. *)
Fixpoint to_json (fuel : nat) (h : heap) (stack : list nat) (v : jsvalue)
  : res (option json) :=
  match fuel with
  | O => Throw TypeError
  | S fuel' =>
      match v with
      | VUndefined => Ok None
      | VNull => Ok (Some JNull)
      | VBool b => Ok (Some (JBool b))
      | VNum n => Ok (Some (JNum n))
      | VStr s => Ok (Some (JStr s))
      | VRef l =>
          if bool_decide (l ∈ stack) then Throw TypeError
          else
            match h !! l with
            | None => Ok None
            | Some (OArr es _) =>
                match mapM (fun e =>
                              match to_json fuel' h (l :: stack) e with
                              | Throw e => Throw e
                              | Ok o => Ok (default JNull o)
                              end) es with
                | Throw e => Throw e
                | Ok js => Ok (Some (JArr js))
                end
            | Some (OObj ps) =>
                match mapM (fun '(k, e) =>
                              match to_json fuel' h (l :: stack) e with
                              | Throw e => Throw e
                              | Ok o => Ok (pair k <$> o)
                              end) ps with
                | Throw e => Throw e
                | Ok fs => Ok (Some (JObj (omap id fs)))
                end
            end
      end
  end.

(** [JSON.stringify(v)] *)
Definition stringify (h : heap) (v : jsvalue) : res (option string) :=
  match to_json (S (List.length h)) h [] v with
  | Throw e => Throw e
  | Ok o => Ok (print <$> o)
  end.

(** *** Parsing *)

Definition is_ws (c : ascii) : bool :=
  let n := nat_of_ascii c in
  (n =? 32)%nat || (n =? 9)%nat || (n =? 10)%nat || (n =? 13)%nat.

Fixpoint skip_ws (s : string) : string :=
  match s with
  | String c s' => if is_ws c then skip_ws s' else s
  | EmptyString => s
  end.

(** [expect lit s]: [s] without its prefix [lit]. *)
Fixpoint expect (lit s : string) : option string :=
  match lit, s with
  | EmptyString, _ => Some s
  | String a lit', String b s' => if Ascii.eqb a b then expect lit' s' else None
  | _, _ => None
  end.

Definition hex_value (c : ascii) : option nat :=
  let n := nat_of_ascii c in
  if (48 <=? n)%nat && (n <=? 57)%nat then Some (n - 48)%nat
  else if (97 <=? n)%nat && (n <=? 102)%nat then Some (n - 87)%nat
  else if (65 <=? n)%nat && (n <=? 70)%nat then Some (n - 55)%nat
  else None.

(** The characters of a string literal after its opening quote, up to
    and past the closing quote.  Escapes [\uXXXX] are read for one-byte
    characters. *)
Fixpoint parse_string (s : string) : option (string * string) :=
  match s with
  | EmptyString => None
  | String c s' =>
      if Ascii.eqb c quote_char then Some (EmptyString, s')
      else if Ascii.eqb c backslash then
        match s' with
        | String e s'' =>
            let plain (d : ascii) :=
              '(str, rest) ← parse_string s''; Some (String d str, rest) in
            if Ascii.eqb e quote_char then plain quote_char
            else if Ascii.eqb e backslash then plain backslash
            else if Ascii.eqb e "/"%char then plain "/"%char
            else if Ascii.eqb e "b"%char then plain (ascii_of_nat 8)
            else if Ascii.eqb e "t"%char then plain (ascii_of_nat 9)
            else if Ascii.eqb e "n"%char then plain (ascii_of_nat 10)
            else if Ascii.eqb e "f"%char then plain (ascii_of_nat 12)
            else if Ascii.eqb e "r"%char then plain (ascii_of_nat 13)
            else if Ascii.eqb e "u"%char then
              match s'' with
              | String "0" (String "0" (String x (String y s3))) =>
                  hi ← hex_value x; lo ← hex_value y;
                  '(str, rest) ← parse_string s3;
                  Some (String (ascii_of_nat (16 * hi + lo)) str, rest)
              | _ => None
              end
            else None
        | EmptyString => None
        end
      else if (nat_of_ascii c <? 32)%nat then None
      else '(str, rest) ← parse_string s'; Some (String c str, rest)
  end.

Fixpoint take_digits (s : string) : string * string :=
  match s with
  | String c s' =>
      if JS.is_digit c then let '(ds, rest) := take_digits s' in (String c ds, rest)
      else (EmptyString, s)
  | EmptyString => (EmptyString, s)
  end.

(** An integer literal; a fraction or an exponent is outside the model and
    is refused. *)
Definition parse_number (s : string) : option (Z * string) :=
  let '(neg, s1) :=
    match s with String "-" s' => (true, s') | _ => (false, s) end in
  let '(ds, rest) := take_digits s1 in
  match JS.canonical_uint ds, rest with
  | None, _ => None
  | Some _, String "." _ | Some _, String "e" _ | Some _, String "E" _ => None
  | Some n, _ => Some (if neg then - Z.of_N n else Z.of_N n, rest)
  end.

Fixpoint parse_value (fuel : nat) (s : string) : option (json * string) :=
  match fuel with
  | O => None
  | S fuel' =>
      match skip_ws s with
      | EmptyString => None
      | String c s' as s0 =>
          if Ascii.eqb c "n"%char then pair JNull <$> expect "ull" s'
          else if Ascii.eqb c "t"%char then pair (JBool true) <$> expect "rue" s'
          else if Ascii.eqb c "f"%char then pair (JBool false) <$> expect "alse" s'
          else if Ascii.eqb c quote_char then
            '(str, rest) ← parse_string s'; Some (JStr str, rest)
          else if Ascii.eqb c "["%char then
            match skip_ws s' with
            | String "]" rest => Some (JArr [], rest)
            | s1 =>
                (fix items (n : nat) (s : string) : option (list json * string) :=
                   match n with
                   | O => None
                   | S n' =>
                       '(j, rest) ← parse_value fuel' s;
                       match skip_ws rest with
                       | String "," rest' =>
                           '(js, rest'') ← items n' rest'; Some (j :: js, rest'')
                       | String "]" rest' => Some ([j], rest')
                       | _ => None
                       end
                   end) fuel' s1
                ≫= fun '(js, rest) => Some (JArr js, rest)
            end
          else if Ascii.eqb c "{"%char then
            match skip_ws s' with
            | String "}" rest => Some (JObj [], rest)
            | s1 =>
                (fix fields (n : nat) (s : string)
                   : option (list (string * json) * string) :=
                   match n with
                   | O => None
                   | S n' =>
                       match skip_ws s with
                       | String q s2 =>
                           if Ascii.eqb q quote_char then
                             '(k, rest) ← parse_string s2;
                             match skip_ws rest with
                             | String ":" rest1 =>
                                 '(j, rest2) ← parse_value fuel' rest1;
                                 match skip_ws rest2 with
                                 | String "," rest3 =>
                                     '(fs, rest4) ← fields n' rest3;
                                     Some ((k, j) :: fs, rest4)
                                 | String "}" rest3 => Some ([(k, j)], rest3)
                                 | _ => None
                                 end
                             | _ => None
                             end
                           else None
                       | EmptyString => None
                       end
                   end) fuel' s1
                ≫= fun '(fs, rest) => Some (JObj fs, rest)
            end
          else '(n, rest) ← parse_number s0; Some (JNum n, rest)
      end
  end.

(** The tree of a JSON text, or [None] where [JSON.parse] throws. *)
Definition parse_text (s : string) : option json :=
  '(j, rest) ← parse_value (S (String.length s)) s;
  match skip_ws rest with EmptyString => Some j | _ => None end.

(** Building the parsed tree in the heap.  A repeated field keeps its
    first position and its last value, as property definition does. *)
Fixpoint build (j : json) (h : heap) : jsvalue * heap :=
  match j with
  | JNull => (VNull, h)
  | JBool b => (VBool b, h)
  | JNum n => (VNum n, h)
  | JStr s => (VStr s, h)
  | JArr items =>
      let '(vs, h1) :=
        (fix build_items (js : list json) (h : heap) : list jsvalue * heap :=
           match js with
           | [] => ([], h)
           | j' :: js' =>
               let '(v, h1) := build j' h in
               let '(vs, h2) := build_items js' h1 in
               (v :: vs, h2)
           end) items h in
      alloc (OArr vs []) h1
  | JObj fields =>
      let '(ps, h1) :=
        (fix build_fields (fs : list (string * json)) (ps : list (string * jsvalue))
             (h : heap) : list (string * jsvalue) * heap :=
           match fs with
           | [] => (ps, h)
           | (k, j') :: fs' =>
               let '(v, h1) := build j' h in
               build_fields fs' (props_set true k v ps) h1
           end) fields [] h in
      alloc (OObj ps) h1
  end.

(** [JSON.parse(text)] *)
Definition parse (s : string) (h : heap) : res (jsvalue * heap) :=
  match parse_text s with
  | Some j => Ok (build j h)
  | None => Throw SyntaxError
  end.

End JSON.

(** ** Provider state

    A provider owns its [Collection]; the table lives in the database; the
    heap holds every object the program can reach.  A row is modelled by the
    two columns the providers read and write ([None] is SQL [NULL]); the
    SQLite table also numbers its rows in an [id] column, which no statement
    of the provider reads or writes.  Rows are kept in insertion order, which
    is the order [SELECT *] returns them in. *)

Record row : Type := Row { row_key : string; row_value : option string }.

Record state : Type := State {
  st_heap : heap;
  st_collection : gmap string jsvalue;
  st_table : list row
}.

(** Computations that read and write the state and may throw.  The state
    reached when an exception is thrown is kept: nothing is rolled back. *)
Definition M (A : Type) : Type := state -> res A * state.

Definition ret {A : Type} (a : A) : M A := fun st => (Ok a, st).

Definition bind {A B : Type} (m : M A) (k : A -> M B) : M B :=
  fun st =>
    match m st with
    | (Ok a, st') => k a st'
    | (Throw e, st') => (Throw e, st')
    end.

Notation "'let*' x ':=' m 'in' k" := (bind m (fun x => k))
  (at level 10, x pattern, m at level 200, k at level 200).
Notation "m ';;' k" := (bind m (fun _ => k))
  (at level 100, k at level 200, right associativity).

(** [if (c) { m }] *)
Definition when (c : bool) (m : M unit) : M unit := if c then m else ret tt.

Definition with_heap {A : Type} (f : heap -> A * heap) : M A :=
  fun st =>
    let '(a, h) := f (st_heap st) in
    (Ok a, State h (st_collection st) (st_table st)).

Definition read_heap {A : Type} (f : heap -> A) : M A :=
  fun st => (Ok (f (st_heap st)), st).

(** [this.collection].

    Modelled from the spec: [Collection] is imported through [deps.ts],
    which is not among the sources.  The spec's Cache is a pure in-memory
    mapping from root key to document with [get], [set], [has] and
    [delete], the last write winning. *)
Module Collection.

(** [collection.get(key)]: [undefined] when there is no entry. *)
Definition get (key : string) : M jsvalue :=
  fun st => (Ok (default VUndefined (st_collection st !! key)), st).

Definition has (key : string) : M bool :=
  fun st => (Ok (bool_decide (is_Some (st_collection st !! key))), st).

Definition set (key : string) (v : jsvalue) : M unit :=
  fun st => (Ok tt, State (st_heap st) (<[key := v]> (st_collection st)) (st_table st)).

Definition delete (key : string) : M unit :=
  fun st => (Ok tt, State (st_heap st) (base.delete key (st_collection st)) (st_table st)).

End Collection.

(** [this.db]: the statements the providers send, on the table.

    Modelled from the spec: the database drivers are imported through
    [deps.ts], which is not among the sources.  The spec's Backend Store is
    a table of [(key, value)] rows without a uniqueness constraint, with
    select of all rows or by key, insert of a row, update by key and delete
    by key. *)
Module DB.

Definition key_is (key : string) (r : row) : bool := String.eqb (row_key r) key.

Definition on_table (f : list row -> list row) : M unit :=
  fun st => (Ok tt, State (st_heap st) (st_collection st) (f (st_table st))).

(** [SELECT * FROM t] *)
Definition select_all : M (list row) := fun st => (Ok (st_table st), st).

(** [SELECT * FROM t WHERE key = ?] *)
Definition select_by_key (key : string) : M (list row) :=
  fun st => (Ok (List.filter (key_is key) (st_table st)), st).

(** [INSERT INTO t (key, value) VALUES (?, ?)] *)
Definition insert (key : string) (text : option string) : M unit :=
  on_table (fun t => t ++ [Row key text]).

(** [UPDATE t SET value = ? WHERE key = ?] *)
Definition update (text : option string) (key : string) : M unit :=
  on_table (List.map (fun r => if key_is key r then Row (row_key r) text else r)).

(** [DELETE FROM t WHERE key = ?] *)
Definition delete (key : string) : M unit :=
  on_table (List.filter (fun r => negb (key_is key r))).

End DB.

(** The library calls, lifted to the provider state. *)

(** [{}] *)
Definition new_object : M jsvalue := with_heap (alloc (OObj [])).

(** [const array = []; array.push(...)] for the given elements. *)
Definition new_array (elems : list jsvalue) : M jsvalue := with_heap (alloc (OArr elems [])).

Definition lodash_set (object : jsvalue) (p : Lodash.path) (v : jsvalue) : M jsvalue :=
  with_heap (fun h => Lodash.set h object p v).

Definition lodash_get (object : jsvalue) (p : Lodash.path) (d : jsvalue) : M jsvalue :=
  read_heap (fun h => Lodash.get h object p d).

Definition lodash_has (object : jsvalue) (p : Lodash.path) : M bool :=
  read_heap (fun h => Lodash.has h object p).

Definition JSON_stringify (v : jsvalue) : M (option string) :=
  fun st => (JSON.stringify (st_heap st) v, st).

(** [JSON.parse(row.value)]; a [NULL] column reads as [null], whose text
    parses to [null]. *)
Definition JSON_parse (text : option string) : M jsvalue :=
  match text with
  | None => ret VNull
  | Some s =>
      fun st =>
        match JSON.parse s (st_heap st) with
        | Ok (v, h) => (Ok v, State h (st_collection st) (st_table st))
        | Throw e => (Throw e, st)
        end
  end.

(** The value of a text column read from a row. *)
Definition column (text : option string) : jsvalue :=
  match text with Some s => VStr s | None => VNull end.

(** The first segment of a split key (a split is never empty). *)
Definition first_segment (segs : list string) : string := List.hd "undefined" segs.

(** [for (const x of xs) body(x)] *)
Fixpoint for_each {A : Type} (xs : list A) (body : A -> M unit) : M unit :=
  match xs with
  | [] => ret tt
  | x :: xs' => body x ;; for_each xs' body
  end.

(** [Object.fromEntries(data)] for a [Map] given by its entries in order. *)
Definition Object_fromEntries (data : list (string * jsvalue)) : M jsvalue :=
  with_heap
    (alloc (OObj (List.fold_left (fun ps '(k, v) => props_set true k v ps) data []))).

(** [data.set(key, v)] on a [Map] given by its entries in order. *)
Definition Map_set (key : string) (v : jsvalue) (data : list (string * jsvalue))
  : list (string * jsvalue) := props_set false key v data.

(** ** SqliteProvider.ts *)

Module SqliteProvider.

(** [init()]: every row's [value] column goes into the collection as the
    string it is. *)
Definition init : M unit :=
  let* rows := DB.select_all in
  for_each rows (fun row => Collection.set (row_key row) (column (row_value row))).

Definition delete (key : string) : M unit :=
  DB.delete key ;;
  Collection.delete key.

Definition set (key : string) (value : jsvalue) : M (option row) :=
  let unparsed := JS.split "." key in
  let key := first_segment unparsed in           (* unparsed.shift() *)
  let unparsed := List.tl unparsed in
  let* cached := Collection.get key in
  let* cachedData := (if JS.truthy cached then ret cached else new_object) in
  let* lodashedData :=
    lodash_set cachedData
      (if (1 <? List.length unparsed)%nat then Lodash.PArr unparsed
       else Lodash.PStr key)
      value in
  let* lodashedData :=
    (if (1 <? List.length unparsed)%nat
     then Collection.set key lodashedData ;; ret lodashedData
     else Collection.set key value ;; ret value) in
  let* fetchQuery := DB.select_by_key key in
  when (Z.of_nat (List.length fetchQuery) <? 0)
    (let* text := JSON_stringify lodashedData in
     DB.insert key text ;;
     let* _ := DB.select_by_key key in
     ret tt) ;;
  let* text := JSON_stringify lodashedData in
  DB.update text key ;;
  let* rows := DB.select_by_key key in
  ret (head rows).

(** [get(key, defaultValue = "")]: an omitted or [undefined] argument
    takes the default. *)
Definition get (key : string) (defaultValue : jsvalue) : M jsvalue :=
  let defaultValue :=
    match defaultValue with VUndefined => VStr "" | _ => defaultValue end in
  if JS.includes "." key then
    let array := JS.split "." key in
    let* collection := Collection.get (first_segment array) in
    let* exists_ := Collection.has (first_segment array) in
    let array := List.tl array in
    let prop := JS.join "." array in
    when (negb exists_) (let* _ := set key defaultValue in ret tt) ;;
    lodash_get collection (Lodash.PStr prop) VNull
  else
    let* exists_ := Collection.has key in
    when (negb exists_) (let* _ := set key defaultValue in ret tt) ;;
    Collection.get key.

(** [fetch(key, defaultValue = "")]: calls [get] and returns nothing. *)
Definition fetch (key : string) (defaultValue : jsvalue) : M jsvalue :=
  let defaultValue :=
    match defaultValue with VUndefined => VStr "" | _ => defaultValue end in
  let* _ := get key defaultValue in
  ret VUndefined.

(** The body of the loop of [push], for one pushed value [v]; [fetched]
    is read once, before the loop. *)
Definition push_one (key : string) (fetched : jsvalue) (v : jsvalue) : M unit :=
  if negb (JS.truthy fetched) then
    let* array := new_array [v] in
    let* _ := set key array in ret tt
  else
    let* is_array := read_heap (fun h => Lodash.isArray h fetched) in
    if negb is_array then
      let* array := new_array [fetched; v] in
      let* _ := set key array in ret tt
    else
      with_heap (fun h => (tt, array_push h fetched v)) ;;
      let* _ := set key fetched in ret tt.

Definition push (key : string) (value : list jsvalue) : M jsvalue :=
  let* fetched := get key VUndefined in
  for_each value (push_one key fetched) ;;
  get key VUndefined.

Definition all : M jsvalue :=
  let* fetched := DB.select_all in
  let* data :=
    (fix loop (rows : list row) (data : list (string * jsvalue))
       : M (list (string * jsvalue)) :=
       match rows with
       | [] => ret data
       | o :: rows' =>
           let* v := JSON_parse (row_value o) in
           loop rows' (Map_set (row_key o) v data)
       end) fetched [] in
  Object_fromEntries data.

Definition has (key : string) : M bool :=
  if JS.includes "." key then
    let split := JS.split "." key in
    let* collection := get (first_segment split) VUndefined in   (* split.shift() *)
    let split := List.tl split in
    let prop := JS.join "." split in
    lodash_has collection (Lodash.PStr prop)
  else Collection.has key.

End SqliteProvider.

(** ** PostgresProvider.ts

    The methods are [async]; every query is awaited before the next step, so
    for one caller the steps run in program order.  The table is taken to
    exist, so the [CREATE TABLE IF NOT EXISTS] of [init] changes nothing.
    The [console.log] lines of [push] only print. *)

Module PostgresProvider.

Definition delete (key : string) : M unit :=
  DB.delete key ;;
  Collection.delete key.

Definition init : M unit :=
  let* all := DB.select_all in
  for_each all (fun row => Collection.set (row_key row) (column (row_value row))).

Definition set (key : string) (value : jsvalue) : M (option row) :=
  let '(key, unparsed) :=
    if JS.includes "." key then
      let split := JS.split "." key in
      (first_segment split, Some (List.tl split))
    else (key, None) in
  let* cached := Collection.get key in
  let* cachedData := (if JS.truthy cached then ret cached else new_object) in
  let* lodashedData :=
    lodash_set cachedData
      (match unparsed with
       | Some segs => Lodash.PArr segs
       | None => Lodash.PStr key
       end)
      value in
  let* lodashedData :=
    (match unparsed with
     | Some _ => Collection.set key lodashedData ;; ret lodashedData
     | None => Collection.set key value ;; ret value
     end) in
  let* fetchQuery := DB.select_by_key key in
  when (Z.of_nat (List.length fetchQuery) <=? 0)
    (let* text := JSON_stringify lodashedData in
     DB.insert key text ;;
     let* _ := DB.select_by_key key in
     ret tt) ;;
  let* text := JSON_stringify lodashedData in
  DB.update text key ;;
  let* rows := DB.select_by_key key in
  ret (head rows).

(** [get(key, defaultValue?)] *)
Definition get (key : string) (defaultValue : jsvalue) : M jsvalue :=
  if JS.includes "." key then
    let array := JS.split "." key in
    let* collection := Collection.get (first_segment array) in
    let* exists_ := Collection.has (first_segment array) in
    let array := List.tl array in
    let prop := JS.join "." array in
    when (negb exists_)
      (let* _ := set key (JS.or defaultValue (VStr "")) in ret tt) ;;
    lodash_get collection (Lodash.PStr prop) VNull
  else
    let* exists_ := Collection.has key in
    when (negb exists_)
      (let* _ := set key (JS.or defaultValue (VStr "")) in ret tt) ;;
    Collection.get key.

(** [fetch(key, defaultValue?)]: both branches await [get] and return
    nothing. *)
Definition fetch (key : string) (defaultValue : jsvalue) : M jsvalue :=
  if JS.truthy defaultValue then
    let* _ := get key defaultValue in
    ret VUndefined
  else
    let* _ := get key VUndefined in
    ret VUndefined.

Definition push_one (key : string) (fetched : jsvalue) (v : jsvalue) : M unit :=
  if negb (JS.truthy fetched) then
    let* array := new_array [v] in
    let* _ := set key array in ret tt
  else
    let* is_array := read_heap (fun h => Lodash.isArray h fetched) in
    if negb is_array then
      let* array := new_array [fetched; v] in
      let* _ := set key array in ret tt
    else
      with_heap (fun h => (tt, array_push h fetched v)) ;;
      let* _ := set key fetched in ret tt.

Definition push (key : string) (value : list jsvalue) : M jsvalue :=
  let* fetched := get key VUndefined in
  for_each value (push_one key fetched) ;;
  get key VUndefined.

Definition all : M jsvalue :=
  let* fetched := DB.select_all in
  let* data :=
    (fix forEach (rows : list row) (data : list (string * jsvalue))
       : M (list (string * jsvalue)) :=
       match rows with
       | [] => ret data
       | o :: rows' =>
           let* value := JSON_parse (row_value o) in
           forEach rows' (Map_set (row_key o) value data)
       end) fetched [] in
  Object_fromEntries data.

Definition has (key : string) : M bool :=
  if JS.includes "." key then
    let split := JS.split "." key in
    let first := first_segment split in
    let* collection := get first VUndefined in
    let split := List.tl split in
    let prop := JS.join "." split in
    lodash_has collection (Lodash.PStr prop)
  else Collection.has key.

End PostgresProvider.

(** * Properties *)

(** ** Vocabulary *)

(** The state of a provider that has just been constructed over an empty
    table. *)
Definition empty_state : state := State [] ∅ [].

(** A cache and a table that hold both a root key and a dotted key. *)
Definition nested_key_state : state :=
  State [] (<["a" := VNum 1]> (<["a.b" := VNum 2]> ∅))
        [Row "a" (Some "1"); Row "a.b" (Some "2")].

(** The text [JSON.stringify] writes for the document with the one property
    [money] of value 100, and a table whose only row stores it for [user]. *)
Definition user_text : string :=
  JSON.print (JSON.JObj [("money", JSON.JNum 100)]).

Definition user_table : state := State [] ∅ [Row "user" (Some user_text)].

(** What is asked of a [delete] method at a key and a state: the call
    returns, nothing is left under the given key, and the entry and rows of
    the key's first segment, and the heap, are as before. *)
Definition removes_only_given_key (delete : string -> M unit) (key : string)
    (st : state) : Prop :=
  let root := first_segment (JS.split "." key) in
  let st' := snd (delete key st) in
  fst (delete key st) = Ok tt
  /\ st_collection st' !! key = None
  /\ List.filter (DB.key_is key) (st_table st') = []
  /\ st_collection st' !! root = st_collection st !! root
  /\ List.filter (DB.key_is root) (st_table st')
     = List.filter (DB.key_is root) (st_table st)
  /\ st_heap st' = st_heap st.

(** A computation that leaves the key column of the table as it is. *)
Definition keeps_row_keys {A : Type} (m : M A) : Prop :=
  forall st, List.map row_key (st_table (snd (m st))) = List.map row_key (st_table st).





(** The outcome of a call whose result is dropped. *)
Definition discard_result (r : res jsvalue * state) : res jsvalue * state :=
  (match fst r with Ok _ => Ok VUndefined | Throw e => Throw e end, snd r).

(** The cache [init] builds: each row in turn stored under its key. *)
Definition load_rows (rows : list row) (c : gmap string jsvalue) : gmap string jsvalue :=
  List.fold_left (fun c r => <[row_key r := column (row_value r)]> c) rows c.

(** The statements of [PostgresProvider.set] that follow the update of the
    cache: probe, insert when there is no row, update, read back. *)
Definition postgres_persist (key : string) (lodashedData : jsvalue) : M (option row) :=
  let* fetchQuery := DB.select_by_key key in
  when (Z.of_nat (List.length fetchQuery) <=? 0)
    (let* text := JSON_stringify lodashedData in
     DB.insert key text ;;
     let* _ := DB.select_by_key key in
     ret tt) ;;
  let* text := JSON_stringify lodashedData in
  DB.update text key ;;
  let* rows := DB.select_by_key key in
  ret (head rows).

(** The root key, the document and the heap [PostgresProvider.set] reaches
    before it turns to the table. *)
Definition postgres_cached (key : string) (v : jsvalue) (st : state)
  : string * jsvalue * heap :=
  let dotted := JS.includes "." key in
  let root := if dotted then first_segment (JS.split "." key) else key in
  let cached := default VUndefined (st_collection st !! root) in
  let '(cachedData, h1) :=
    if JS.truthy cached then (cached, st_heap st) else alloc (OObj []) (st_heap st) in
  let '(lodashedData, h2) :=
    Lodash.set h1 cachedData
      (if dotted then Lodash.PArr (List.tl (JS.split "." key)) else Lodash.PStr root) v in
  (root, if dotted then lodashedData else v, h2).

(** The table after [UPDATE t SET value = text WHERE key = key]. *)
Definition update_rows (text : option string) (key : string) (t : list row) : list row :=
  List.map (fun r => if DB.key_is key r then Row (row_key r) text else r) t.

(** The cache entry of [root] and its rows agree: there is a row, and every
    row of the key holds the text [JSON.stringify] gives for the cached
    document. *)
Definition written_through (root : string) (st : state) : Prop :=
  exists doc text,
    st_collection st !! root = Some doc
    /\ JSON.stringify (st_heap st) doc = Ok text
    /\ List.filter (DB.key_is root) (st_table st) <> []
    /\ Forall (fun r => r = Row root text) (List.filter (DB.key_is root) (st_table st)).

(** The cached document of a root can take a property: there is none yet,
    or it is falsy and will be replaced by a new object, or it is an object
    or an array of the heap. *)
Definition can_take_property (st : state) (root : string) : Prop :=
  match st_collection st !! root with
  | None => True
  | Some c => JS.truthy c = false \/ exists l, c = VRef l /\ is_Some (st_heap st !! l)
  end.

(** *** Vocabulary of the further properties *)



(** The statements of [SqliteProvider.set] that follow the update of the
    cache: probe, the insert that never runs, update, read back. *)
Definition sqlite_persist (key : string) (lodashedData : jsvalue) : M (option row) :=
  let* fetchQuery := DB.select_by_key key in
  when (Z.of_nat (List.length fetchQuery) <? 0)
    (let* text := JSON_stringify lodashedData in
     DB.insert key text ;;
     let* _ := DB.select_by_key key in
     ret tt) ;;
  let* text := JSON_stringify lodashedData in
  DB.update text key ;;
  let* rows := DB.select_by_key key in
  ret (head rows).

(** The root key, the document and the heap [SqliteProvider.set] reaches
    before it turns to the table. *)
Definition sqlite_cached (key : string) (v : jsvalue) (st : state)
  : string * jsvalue * heap :=
  let unparsed := List.tl (JS.split "." key) in
  let root := first_segment (JS.split "." key) in
  let nested := (1 <? List.length unparsed)%nat in
  let cached := default VUndefined (st_collection st !! root) in
  let '(cachedData, h1) :=
    if JS.truthy cached then (cached, st_heap st) else alloc (OObj []) (st_heap st) in
  let '(lodashedData, h2) :=
    Lodash.set h1 cachedData
      (if nested then Lodash.PArr unparsed else Lodash.PStr root) v in
  (root, if nested then lodashedData else v, h2).


(** What [delete] does at any key: the call returns, the entry and the rows
    of the key are gone, and the heap and every other key's entry and rows
    are as before. *)
Definition removes_exactly (delete : string -> M unit) (key : string) (st : state) : Prop :=
  let st' := snd (delete key st) in
  fst (delete key st) = Ok tt
  /\ st_collection st' !! key = None
  /\ List.filter (DB.key_is key) (st_table st') = []
  /\ st_heap st' = st_heap st
  /\ forall k, k <> key ->
       st_collection st' !! k = st_collection st !! k
       /\ List.filter (DB.key_is k) (st_table st')
          = List.filter (DB.key_is k) (st_table st).

(** The value column of the last row stored under [k], if there is one. *)
Fixpoint last_row_value (k : string) (rows : list row) : option (option string) :=
  match rows with
  | [] => None
  | r :: rows' =>
      match last_row_value k rows' with
      | Some text => Some text
      | None => if DB.key_is k r then Some (row_value r) else None
      end
  end.

(** The loop of [all()]: each row parsed and stored in the map under its
    key. *)
Fixpoint parse_rows (rows : list row) (data : list (string * jsvalue))
  : M (list (string * jsvalue)) :=
  match rows with
  | [] => ret data
  | o :: rows' =>
      let* v := JSON_parse (row_value o) in
      parse_rows rows' (Map_set (row_key o) v data)
  end.

(** What [all] gives at a state: cache and table are left as they are, and
    a normal result is a new object whose properties are exactly the keys
    that have a row. *)
Definition lists_row_keys (all : M jsvalue) (st : state) : Prop :=
  st_collection (snd (all st)) = st_collection st
  /\ st_table (snd (all st)) = st_table st
  /\ forall r, fst (all st) = Ok r ->
       exists l ps,
         r = VRef l
         /\ st_heap (snd (all st)) !! l = Some (OObj ps)
         /\ forall k, is_Some (props_lookup k ps) <-> k ∈ List.map row_key (st_table st).





(** A provider whose key [items] is cached as the array of one string. *)
Definition items_state : state :=
  State [OArr [VStr "Apple"] []] (<["items" := VRef 0]> ∅) [Row "items" None].

(** What [push] of one value does to a cached scalar: a new array of the
    scalar and the value becomes the cache entry, and is the result when
    the call returns. *)
Definition wraps_scalar (push : string -> list jsvalue -> M jsvalue) (key : string)
    (x v : jsvalue) (st : state) : Prop :=
  let st' := snd (push key [v] st) in
  let l := List.length (st_heap st) in
  st_collection st' !! key = Some (VRef l)
  /\ st_heap st' = st_heap st ++ [OArr [x; v] []]
  /\ forall r, fst (push key [v] st) = Ok r -> r = VRef l.

(** ** Keys and their first segment *)

Section Keys.

Lemma split_not_nil (c : ascii) (s : string) : JS.split c s <> [].
Proof.
  destruct s as [|d s']; simpl; [discriminate|].
  destruct (Ascii.eqb d c); [discriminate|].
  destruct (JS.split c s'); discriminate.
Qed.

Lemma split_no_sep (c : ascii) (s : string) :
  JS.includes c s = false -> JS.split c s = [s].
Proof.
  induction s as [|d s IH]; simpl; [reflexivity|].
  destruct (Ascii.eqb d c); [discriminate|].
  intros H. now rewrite IH.
Qed.

Lemma split_app_sep (c : ascii) (a rest : string) :
  JS.includes c a = false ->
  JS.split c (a +:+ String c rest) = a :: JS.split c rest.
Proof.
  induction a as [|d a IH]; simpl.
  - now rewrite Ascii.eqb_refl.
  - destruct (Ascii.eqb d c); [discriminate|].
    intros H. now rewrite IH.
Qed.

(** The first segment of a split holds no separator. *)
Lemma first_segment_no_sep (c : ascii) (s : string) :
  JS.includes c (first_segment (JS.split c s)) = false.
Proof.
  induction s as [|d s' IH]; simpl; [reflexivity|].
  destruct (Ascii.eqb d c) eqn:Hd; simpl; [reflexivity|].
  pose proof (split_not_nil c s') as Hne.
  destruct (JS.split c s') as [|seg segs]; [congruence|].
  simpl in *. now rewrite Hd.
Qed.

(** A dotted key is never its own root key. *)
Lemma first_segment_neq (key : string) :
  JS.includes "." key = true -> first_segment (JS.split "." key) <> key.
Proof.
  intros Hdot Heq.
  pose proof (first_segment_no_sep "." key) as Hno.
  rewrite Heq in Hno. congruence.
Qed.

Lemma key_is_true (k : string) (r : row) : DB.key_is k r = true <-> row_key r = k.
Proof. unfold DB.key_is. apply String.eqb_eq. Qed.

(** Deleting the rows of one key leaves the rows of every other key. *)
Lemma filter_other_key (root key : string) (t : list row) :
  root <> key ->
  List.filter (DB.key_is root) (List.filter (fun r => negb (DB.key_is key r)) t)
  = List.filter (DB.key_is root) t.
Proof.
  intros Hne. induction t as [|r t IH]; simpl; [reflexivity|].
  destruct (DB.key_is key r) eqn:Hk; simpl.
  - destruct (DB.key_is root r) eqn:Hr; [|exact IH].
    apply key_is_true in Hk. apply key_is_true in Hr. congruence.
  - now rewrite IH.
Qed.

Lemma filter_deleted_key (key : string) (t : list row) :
  List.filter (DB.key_is key) (List.filter (fun r => negb (DB.key_is key r)) t) = [].
Proof.
  induction t as [|r t IH]; simpl; [reflexivity|].
  destruct (DB.key_is key r) eqn:Hk; simpl; [exact IH|].
  now rewrite Hk.
Qed.

Lemma filter_update_rows (text : option string) (key : string) (t : list row) :
  List.filter (DB.key_is key) (update_rows text key t)
  = List.map (fun _ => Row key text) (List.filter (DB.key_is key) t).
Proof.
  induction t as [|r t IH]; simpl; [reflexivity|].
  destruct (DB.key_is key r) eqn:Hr; simpl.
  - unfold DB.key_is at 1. simpl.
    apply key_is_true in Hr. rewrite Hr, String.eqb_refl. simpl. now rewrite IH.
  - now rewrite Hr.
Qed.

Lemma filter_app_own_row (text : option string) (key : string) (t : list row) :
  List.filter (DB.key_is key) (t ++ [Row key text])
  = List.filter (DB.key_is key) t ++ [Row key text].
Proof.
  rewrite List.filter_app. simpl. unfold DB.key_is at 2. simpl.
  now rewrite String.eqb_refl.
Qed.

Lemma includes_app_sep (c : ascii) (a rest : string) :
  JS.includes c (a +:+ String c rest) = true.
Proof.
  induction a as [|d a IH]; simpl.
  - now rewrite Ascii.eqb_refl.
  - now destruct (Ascii.eqb d c).
Qed.

End Keys.

(** ** Reasoning about computations *)

Section Invariants.

Context {A B : Type} (I : state -> Prop).




End Invariants.

Section CollectionInvariants.

Context (P : gmap string jsvalue -> Prop).







End CollectionInvariants.






(** ** Facts about the libraries *)

Section Props.

Lemma props_lookup_replace (k : string) (v : jsvalue) (ps : list (string * jsvalue)) :
  is_Some (props_lookup k ps) -> props_lookup k (props_replace k v ps) = Some v.
Proof.
  induction ps as [|[k' v'] ps IH]; simpl; intros Hsome.
  - now destruct Hsome.
  - destruct (String.eqb k' k) eqn:Hk; simpl; rewrite Hk; [reflexivity|].
    now apply IH.
Qed.

Lemma props_lookup_app (k : string) (v : jsvalue) (ps : list (string * jsvalue)) :
  props_lookup k ps = None -> props_lookup k (ps ++ [(k, v)]) = Some v.
Proof.
  induction ps as [|[k' v'] ps IH]; simpl; intros Hnone.
  - now rewrite String.eqb_refl.
  - destruct (String.eqb k' k); [discriminate|]. now apply IH.
Qed.

Lemma props_lookup_insert_index (i : nat) (k : string) (v : jsvalue)
    (ps : list (string * jsvalue)) :
  props_lookup k ps = None -> props_lookup k (props_insert_index i k v ps) = Some v.
Proof.
  induction ps as [|[k' v'] ps IH]; simpl; intros Hnone.
  - now rewrite String.eqb_refl.
  - destruct (String.eqb k' k) eqn:Hk; [discriminate|].
    destruct (JS.index_of_key k') as [j|]; [destruct (j <? i)%nat|]; simpl;
      rewrite ?Hk, ?String.eqb_refl; auto.
Qed.

Lemma props_lookup_set (ordered : bool) (k : string) (v : jsvalue)
    (ps : list (string * jsvalue)) :
  props_lookup k (props_set ordered k v ps) = Some v.
Proof.
  unfold props_set. destruct (props_lookup k ps) eqn:Hk.
  - apply props_lookup_replace. rewrite Hk. eauto.
  - destruct (JS.index_of_key k); [destruct ordered|];
      auto using props_lookup_insert_index, props_lookup_app.
Qed.

Lemma elems_set_lookup (i : nat) (v : jsvalue) (es : list jsvalue) :
  elems_set i v es !! i = Some v.
Proof.
  unfold elems_set. destruct (i <? List.length es)%nat eqn:Hi.
  - apply Nat.ltb_lt in Hi. now apply list_lookup_insert_eq.
  - apply Nat.ltb_ge in Hi.
    rewrite lookup_app_r by lia.
    rewrite lookup_app_r by (rewrite length_replicate; lia).
    rewrite length_replicate.
    replace (i - List.length es - (i - List.length es))%nat with 0%nat by lia.
    reflexivity.
Qed.

(** Reading back the property just assigned. *)
Lemma get_set_prop (h : heap) (l : nat) (k : string) (v : jsvalue) :
  is_Some (h !! l) -> get_prop (set_prop h l k v) (VRef l) k = v.
Proof.
  intros [o Ho]. pose proof (lookup_lt_Some _ _ _ Ho) as Hlt.
  unfold set_prop, get_prop. rewrite Ho.
  destruct o as [es ps|ps].
  - destruct (JS.index_of_key k) as [i|] eqn:Hi;
      rewrite list_lookup_insert_eq by exact Hlt; rewrite ?Hi.
    + now rewrite elems_set_lookup.
    + now rewrite props_lookup_set.
  - rewrite list_lookup_insert_eq by exact Hlt. now rewrite props_lookup_set.
Qed.

End Props.

(** [_.get] with a one-key path reads that property of an object. *)
Lemma lodash_get_one_key (h : heap) (l : nat) (k : string) :
  JS.includes "." k = false ->
  Lodash.get h (VRef l) (Lodash.PStr k) VNull
  = let result := get_prop h (VRef l) k in
    match result with VUndefined => VNull | _ => result end.
Proof.
  intros Hk. unfold Lodash.get, Lodash.baseGet, Lodash.castPath, Lodash.isKey.
  rewrite Hk. reflexivity.
Qed.

Lemma lodash_get_undefined (h : heap) (p : Lodash.path) :
  Lodash.get h VUndefined p VNull = VNull.
Proof. reflexivity. Qed.


(** *** The fuel of [JSON.stringify] *)

Section Fuel.

Lemma mapM_ext {A B : Type} (f g : A -> res B) (l : list A) :
  (forall a, a ∈ l -> f a = g a) -> JSON.mapM f l = JSON.mapM g l.
Proof.
  induction l as [|a l IH]; intros Hfg; simpl; [reflexivity|].
  rewrite (Hfg a) by apply list_elem_of_here.
  rewrite IH; [reflexivity|].
  intros a' Ha'. apply Hfg. now apply list_elem_of_further.
Qed.

(** A stack of distinct heap locations is no longer than the heap. *)
Lemma stack_bounded (h : heap) (stack : list nat) :
  NoDup stack -> (forall l, l ∈ stack -> (l < List.length h)%nat) ->
  (List.length stack <= List.length h)%nat.
Proof.
  intros Hnd Hlt.
  assert (Hsub : stack ⊆+ seq 0 (List.length h)).
  { apply NoDup_submseteq; [exact Hnd|].
    intros l Hl. apply elem_of_seq. specialize (Hlt l Hl). lia. }
  apply submseteq_length in Hsub. now rewrite length_seq in Hsub.
Qed.

(** Once the fuel exceeds the room left for the stack, more fuel changes
    nothing: the serialiser never stops for lack of it. *)
Lemma to_json_fuel (h : heap) (fuel : nat) :
  forall (fuel' : nat) (stack : list nat) (v : jsvalue),
    NoDup stack -> (forall l, l ∈ stack -> (l < List.length h)%nat) ->
    (List.length h < fuel + List.length stack)%nat -> (fuel <= fuel')%nat ->
    JSON.to_json fuel' h stack v = JSON.to_json fuel h stack v.
Proof.
  induction fuel as [|fuel IH]; intros fuel' stack v Hnd Hlt Hroom Hle.
  - pose proof (stack_bounded h stack Hnd Hlt). lia.
  - destruct fuel' as [|fuel']; [lia|].
    destruct v as [| | | | |l]; try reflexivity. simpl.
    destruct (bool_decide (l ∈ stack)) eqn:Hin; [reflexivity|].
    apply bool_decide_eq_false in Hin.
    destruct (h !! l) as [[es ps|ps]|] eqn:Hl; [| |reflexivity].
    + rewrite (mapM_ext _ (fun e => match JSON.to_json fuel h (l :: stack) e with
                                    | Throw e0 => Throw e0
                                    | Ok o => Ok (default JSON.JNull o)
                                    end)); [reflexivity|].
      intros e _. rewrite (IH fuel' (l :: stack) e); [reflexivity| | | |lia].
      * now constructor.
      * intros l' Hl'. apply elem_of_cons in Hl' as [->|Hl']; [|now apply Hlt].
        now apply lookup_lt_Some in Hl.
      * simpl. lia.
    + rewrite (mapM_ext _ (fun '(k, e) => match JSON.to_json fuel h (l :: stack) e with
                                          | Throw e0 => Throw e0
                                          | Ok o => Ok (pair k <$> o)
                                          end)); [reflexivity|].
      intros [k e] _. rewrite (IH fuel' (l :: stack) e); [reflexivity| | | |lia].
      * now constructor.
      * intros l' Hl'. apply elem_of_cons in Hl' as [->|Hl']; [|now apply Hlt].
        now apply lookup_lt_Some in Hl.
      * simpl. lia.
Qed.

(** The fuel [JSON.stringify] starts with is enough for every heap and
    value. *)
Corollary stringify_fuel (h : heap) (v : jsvalue) (extra : nat) :
  JSON.to_json (S (List.length h) + extra) h [] v
  = JSON.to_json (S (List.length h)) h [] v.
Proof.
  apply to_json_fuel; [constructor| |simpl; lia|lia].
  intros l Hl. now apply elem_of_nil in Hl.
Qed.

End Fuel.

(** ** has and delete *)

(** C9.  For a key without a dot, [has] answers from the collection alone:
    the result is the membership of the key in the cache, and the heap, the
    cache and the table are left exactly as they were, in both providers. *)
Theorem has_root_key_no_effect (key : string) (st : state) :
  JS.includes "." key = false ->
  SqliteProvider.has key st
    = (Ok (bool_decide (is_Some (st_collection st !! key))), st)
  /\ PostgresProvider.has key st
    = (Ok (bool_decide (is_Some (st_collection st !! key))), st).
Proof.
  intros Hdot.
  unfold SqliteProvider.has, PostgresProvider.has.
  rewrite Hdot. split; reflexivity.
Qed.

Lemma has_root_key_no_effect_witness :
  JS.includes "." "john" = false
  /\ SqliteProvider.has "john" empty_state = (Ok false, empty_state)
  /\ PostgresProvider.has "john" empty_state = (Ok false, empty_state).
Proof.
  split; [reflexivity|].
  apply (has_root_key_no_effect "john" empty_state). reflexivity.
Defined.

(** The branch for dotted keys goes through [get], which stores a default
    for an uncached root: [has("john.age")] on a new PostgreSQL provider
    answers [false] and leaves a cache entry and a row for [john]. *)
Example has_dotted_key_stores_default :
  let r := PostgresProvider.has "john.age" empty_state in
  fst r = Ok false
  /\ st_collection (snd r) !! "john" = Some (VStr "")
  /\ st_table (snd r) = [Row "john" (Some (JSON.quote ""))].
Proof. vm_compute. repeat split; reflexivity. Qed.

(** The two [delete] methods are the same two statements. *)
Lemma delete_unfold (key : string) (st : state) :
  SqliteProvider.delete key st
    = (Ok tt, State (st_heap st) (base.delete key (st_collection st))
                (List.filter (fun r => negb (DB.key_is key r)) (st_table st)))
  /\ PostgresProvider.delete key st = SqliteProvider.delete key st.
Proof. split; reflexivity. Qed.

(** C10.  [delete] uses the key as given, without splitting it.  For a
    dotted key it removes the rows and the cache entry stored under the whole
    string, and the cache entry and the rows of the key's root are the same
    after the call as before it, in both providers. *)
Theorem delete_dotted_key_keeps_root (key : string) (st : state) :
  JS.includes "." key = true ->
  removes_only_given_key SqliteProvider.delete key st
  /\ removes_only_given_key PostgresProvider.delete key st.
Proof.
  intros Hdot.
  pose proof (first_segment_neq key Hdot) as Hne.
  assert (Hsqlite : removes_only_given_key SqliteProvider.delete key st).
  { unfold removes_only_given_key.
    rewrite (proj1 (delete_unfold key st)). simpl.
    repeat split.
    - apply lookup_delete_eq.
    - apply filter_deleted_key.
    - apply lookup_delete_ne. congruence.
    - apply filter_other_key. exact Hne. }
  split; [exact Hsqlite|].
  unfold removes_only_given_key in *.
  rewrite (proj2 (delete_unfold key st)). exact Hsqlite.
Qed.

Lemma delete_dotted_key_keeps_root_witness :
  JS.includes "." "a.b" = true
  /\ removes_only_given_key SqliteProvider.delete "a.b" nested_key_state
  /\ removes_only_given_key PostgresProvider.delete "a.b" nested_key_state.
Proof.
  split; [reflexivity|].
  apply (delete_dotted_key_keeps_root "a.b" nested_key_state). reflexivity.
Defined.

Example delete_dotted_key_example :
  snd (SqliteProvider.delete "a.b" nested_key_state)
  = State [] (<["a" := VNum 1]> ∅) [Row "a" (Some "1")].
Proof. vm_compute. reflexivity. Qed.

(** ** set *)

(** *** The SQLite [set] never adds a row *)

Create HintDb keeps discriminated.

Section KeepsRowKeys.

Lemma keeps_ret {A : Type} (a : A) : keeps_row_keys (ret a).
Proof. intros st. reflexivity. Qed.

Lemma keeps_bind {A B : Type} (m : M A) (k : A -> M B) :
  keeps_row_keys m -> (forall a, keeps_row_keys (k a)) -> keeps_row_keys (bind m k).
Proof.
  intros Hm Hk st. unfold bind.
  specialize (Hm st). destruct (m st) as [[a|e] st']; simpl in *.
  - now rewrite Hk.
  - exact Hm.
Qed.

Lemma keeps_with_heap {A : Type} (f : heap -> A * heap) : keeps_row_keys (with_heap f).
Proof. intros st. unfold with_heap. now destruct (f (st_heap st)). Qed.

Lemma keeps_read_heap {A : Type} (f : heap -> A) : keeps_row_keys (read_heap f).
Proof. intros st. reflexivity. Qed.

Lemma keeps_collection_get k : keeps_row_keys (Collection.get k).
Proof. intros st. reflexivity. Qed.

Lemma keeps_collection_set k v : keeps_row_keys (Collection.set k v).
Proof. intros st. reflexivity. Qed.

Lemma keeps_select_by_key k : keeps_row_keys (DB.select_by_key k).
Proof. intros st. reflexivity. Qed.

Lemma keeps_stringify v : keeps_row_keys (JSON_stringify v).
Proof. intros st. reflexivity. Qed.

Lemma keeps_update text k : keeps_row_keys (DB.update text k).
Proof.
  intros st. simpl. rewrite List.map_map. apply List.map_ext.
  intros r. now destruct (DB.key_is k r).
Qed.

Lemma keeps_new_object : keeps_row_keys new_object.
Proof. apply keeps_with_heap. Qed.

Lemma keeps_lodash_set o p v : keeps_row_keys (lodash_set o p v).
Proof. apply keeps_with_heap. Qed.

(** The guard of the SQLite [INSERT]: a length is never negative. *)
Lemma length_never_negative {A : Type} (l : list A) :
  (Z.of_nat (List.length l) <? 0) = false.
Proof. apply Z.ltb_ge. lia. Qed.

End KeepsRowKeys.

#[local] Hint Resolve keeps_ret keeps_with_heap keeps_read_heap
  keeps_collection_get keeps_collection_set keeps_select_by_key
  keeps_stringify keeps_update keeps_new_object keeps_lodash_set : keeps.

Ltac keeps_step :=
  first
    [ apply keeps_bind; [|intros ?]
    | match goal with
      | |- keeps_row_keys (if ?c then _ else _) => destruct c
      | |- keeps_row_keys (when (_ <? 0) _) =>
          rewrite length_never_negative; unfold when
      end
    | solve [auto with keeps] ].

(** Whatever the key, the value and the state, the SQLite [set] leaves the
    table with the same keys, row for row: no key gains a row. *)
Lemma sqlite_set_keeps_row_keys (key : string) (v : jsvalue) :
  keeps_row_keys (SqliteProvider.set key v).
Proof. unfold SqliteProvider.set. repeat keeps_step. Qed.

Corollary sqlite_set_no_new_row (key : string) (v : jsvalue) (st : state) (k : string) :
  List.filter (DB.key_is k) (st_table st) = [] ->
  List.filter (DB.key_is k) (st_table (snd (SqliteProvider.set key v st))) = [].
Proof.
  pose proof (sqlite_set_keeps_row_keys key v st) as Hkeys.
  revert Hkeys. generalize (st_table (snd (SqliteProvider.set key v st))).
  induction (st_table st) as [|r t IH]; intros t' Hkeys Hnone.
  - destruct t'; [reflexivity|discriminate].
  - destruct t' as [|r' t'']; [discriminate|].
    simpl in *. injection Hkeys as Hr Ht.
    unfold DB.key_is in *. rewrite Hr.
    destruct (String.eqb (row_key r) k); [discriminate|].
    now apply IH.
Qed.

(** *** A key with one dot in the SQLite [set] *)


(** *** The PostgreSQL [set] writes through *)

Lemma postgres_set_unfold (key : string) (v : jsvalue) (st : state) :
  PostgresProvider.set key v st
  = let '(root, doc, h) := postgres_cached key v st in
    postgres_persist root doc (State h (<[root := doc]> (st_collection st)) (st_table st)).
Proof.
  unfold PostgresProvider.set, postgres_cached.
  destruct (JS.includes "." key); simpl;
    unfold bind at 1; simpl; unfold bind at 1;
    (destruct (JS.truthy _); simpl;
     unfold bind at 1; unfold lodash_set, with_heap; simpl;
     try match goal with
         | |- context [Lodash.set ?h ?o ?p ?x] => destruct (Lodash.set h o p x)
         end; reflexivity).
Qed.

Lemma postgres_persist_run (key : string) (doc : jsvalue) (st : state) :
  postgres_persist key doc st
  = match JSON.stringify (st_heap st) doc with
    | Throw e => (Throw e, st)
    | Ok text =>
        let t := match List.filter (DB.key_is key) (st_table st) with
                 | [] => st_table st ++ [Row key text]
                 | _ => st_table st
                 end in
        (Ok (head (List.filter (DB.key_is key) (update_rows text key t))),
         State (st_heap st) (st_collection st) (update_rows text key t))
    end.
Proof.
  unfold postgres_persist, bind, when, DB.select_by_key, DB.insert, DB.update,
    DB.on_table, JSON_stringify, ret. simpl.
  destruct (List.filter (DB.key_is key) (st_table st)) as [|r rs] eqn:Hrows; simpl.
  - destruct (JSON.stringify (st_heap st) doc) as [text|e] eqn:Htext; simpl;
      [rewrite Htext|]; reflexivity.
  - destruct (JSON.stringify (st_heap st) doc) as [text|e]; simpl;
      [|destruct st]; reflexivity.
Qed.

Lemma postgres_cached_root (key : string) (v : jsvalue) (st : state) :
  fst (fst (postgres_cached key v st)) = first_segment (JS.split "." key).
Proof.
  unfold postgres_cached.
  destruct (JS.includes "." key) eqn:Hdot;
    destruct (JS.truthy _); simpl;
    try match goal with
        | |- context [Lodash.set ?h ?o ?p ?x] => destruct (Lodash.set h o p x)
        end; simpl; try reflexivity;
    now rewrite (split_no_sep "." key Hdot).
Qed.

(** Whenever the PostgreSQL [set] returns, the root key of its argument is
    written through, and the returned row is the stored one. *)
Lemma postgres_set_writes_through (key : string) (v : jsvalue) (st st' : state)
    (r : option row) :
  PostgresProvider.set key v st = (Ok r, st') ->
  let root := first_segment (JS.split "." key) in
  written_through root st'
  /\ exists text, r = Some (Row root text).
Proof.
  intros Hset root. rewrite postgres_set_unfold in Hset.
  pose proof (postgres_cached_root key v st) as Hroot. fold root in Hroot.
  destruct (postgres_cached key v st) as [[root' doc] h]. simpl in Hroot. subst root'.
  rewrite postgres_persist_run in Hset. simpl in Hset.
  destruct (JSON.stringify h doc) as [text|e] eqn:Htext; [|discriminate].
  injection Hset as Hr Hst'.
  set (t := match List.filter (DB.key_is root) (st_table st) with
            | [] => st_table st ++ [Row root text]
            | _ => st_table st
            end) in *.
  assert (Hrows : List.filter (DB.key_is root) t <> []).
  { subst t. destruct (List.filter (DB.key_is root) (st_table st)) eqn:Hf.
    - rewrite filter_app_own_row, Hf. discriminate.
    - rewrite Hf. discriminate. }
  rewrite filter_update_rows in Hr.
  split.
  - exists doc, text. subst st'. simpl.
    rewrite lookup_insert_eq, filter_update_rows.
    repeat split; [exact Htext| |].
    + destruct (List.filter (DB.key_is root) t); [congruence|discriminate].
    + apply Forall_forall. intros x Hx.
      apply list_elem_of_In, List.in_map_iff in Hx. destruct Hx as [? [<- _]]. reflexivity.
  - exists text. subst r.
    destruct (List.filter (DB.key_is root) t); [congruence|reflexivity].
Qed.

(** *** A key with one dot in the PostgreSQL [set] *)

(** For a key [a.b] with one dot, a value other than [undefined] and a root
    that can take a property: whenever the PostgreSQL [set] returns, the
    cache entry of [a] is an object whose property [b] is the value, and
    [get] of the same key returns the value. *)
Lemma postgres_set_then_get_one_dot (a b : string) (v : jsvalue) (st st' : state)
    (r : option row) :
  JS.includes "." a = false -> JS.includes "." b = false ->
  v <> VUndefined ->
  can_take_property st a ->
  PostgresProvider.set (a +:+ String "." b) v st = (Ok r, st') ->
  PostgresProvider.get (a +:+ String "." b) VUndefined st' = (Ok v, st')
  /\ exists l, PostgresProvider.get a VUndefined st' = (Ok (VRef l), st')
               /\ get_prop (st_heap st') (VRef l) b = v.
Proof.
  intros Ha Hb Hv Hroot Hset.
  rewrite postgres_set_unfold in Hset.
  unfold postgres_cached in Hset.
  rewrite includes_app_sep, (split_app_sep "." a b Ha), (split_no_sep "." b Hb) in Hset.
  simpl in Hset.
  assert (Hdoc : exists l h,
            (let '(cachedData, h1) :=
               if JS.truthy (default VUndefined (st_collection st !! a))
               then (default VUndefined (st_collection st !! a), st_heap st)
               else alloc (OObj []) (st_heap st) in
             let '(lodashedData, h2) := Lodash.set h1 cachedData (Lodash.PArr [b]) v in
             (a, lodashedData, h2)) = (a, VRef l, set_prop h l b v)
            /\ is_Some (h !! l)).
  { unfold can_take_property in Hroot.
    destruct (st_collection st !! a) as [c|] eqn:Hc; simpl.
    - destruct Hroot as [Hfalsy | [l [-> Hl]]].
      + rewrite Hfalsy. simpl. eexists _, _. split; [reflexivity|].
        rewrite lookup_app_r by lia. rewrite Nat.sub_diag. simpl. eauto.
      + simpl. eexists _, _. split; [reflexivity|exact Hl].
    - simpl. eexists _, _. split; [reflexivity|].
      rewrite lookup_app_r by lia. rewrite Nat.sub_diag. simpl. eauto. }
  destruct Hdoc as [l [h [Heq Hl]]]. rewrite Heq in Hset. clear Heq.
  rewrite postgres_persist_run in Hset. simpl in Hset.
  destruct (JSON.stringify (set_prop h l b v) (VRef l)) as [text|e]; [|discriminate].
  injection Hset as _ <-.
  pose proof (get_set_prop h l b v Hl) as Hget.
  unfold PostgresProvider.get.
  rewrite includes_app_sep, (split_app_sep "." a b Ha), (split_no_sep "." b Hb), Ha.
  unfold bind, Collection.get, Collection.has, when, lodash_get, read_heap. simpl.
  rewrite lookup_insert_eq. simpl.
  split.
  - change (JS.join "." [b]) with b.
    rewrite (lodash_get_one_key _ l b Hb). cbv zeta. rewrite Hget. now destruct v.
  - exists l. split; [|exact Hget]. now rewrite lookup_insert_eq.
Qed.

(** *** Where the providers agree *)

Lemma providers_agree_without_set :
  SqliteProvider.init = PostgresProvider.init
  /\ SqliteProvider.delete = PostgresProvider.delete
  /\ SqliteProvider.all = PostgresProvider.all.
Proof. repeat split; reflexivity. Qed.



(** *** The claims on set *)

(** C1.  In the SQLite provider a key with one dot is not written at its
    path: on a new provider [set("john.gender", "male")] makes the string
    [male] the whole document of [john], so [get("john.gender")] then
    returns [null] and [get("john")] returns [male], where the claim has
    [male] and a document with the property [gender]. *)
Theorem sqlite_set_one_dot_replaces_root :
  fst ((SqliteProvider.set "john.gender" (VStr "male") ;;
        let* nested := SqliteProvider.get "john.gender" VUndefined in
        let* root := SqliteProvider.get "john" VUndefined in
        ret (nested, root)) empty_state)
  = Ok (VNull, VStr "male").
Proof. vm_compute. reflexivity. Qed.

(** The PostgreSQL provider writes the same key at its path. *)
Example postgres_set_one_dot_nested :
  let r := (PostgresProvider.set "john.gender" (VStr "male") ;;
            let* nested := PostgresProvider.get "john.gender" VUndefined in
            let* root := PostgresProvider.get "john" VUndefined in
            ret (nested, root)) empty_state in
  fst r = Ok (VStr "male", VRef 0)
  /\ st_heap (snd r) !! 0%nat = Some (OObj [("gender", VStr "male")]).
Proof. vm_compute. split; reflexivity. Qed.

(** C2.  The two providers part on the first [set] of a key: from the same
    empty table and cache, [set("user", 100)] returns the stored row and
    leaves one row in the PostgreSQL provider, and returns [undefined] and
    leaves the table empty in the SQLite provider. *)
Theorem providers_differ_on_first_set :
  let sqlite := SqliteProvider.set "user" (VNum 100) empty_state in
  let postgres := PostgresProvider.set "user" (VNum 100) empty_state in
  fst sqlite = Ok None
  /\ st_table (snd sqlite) = []
  /\ fst postgres = Ok (Some (Row "user" (Some "100")))
  /\ st_table (snd postgres) = [Row "user" (Some "100")]
  /\ st_collection (snd sqlite) = st_collection (snd postgres).
Proof. vm_compute. repeat split; reflexivity. Qed.

(** C3.  After a [set] or a [push] on a key that has no row, the SQLite
    provider holds the document in its cache and the table holds no row for
    the key. *)
Theorem sqlite_cache_ahead_of_table :
  let after_set := snd (SqliteProvider.set "score" (VNum 7) empty_state) in
  let after_push := snd (SqliteProvider.push "items" [VStr "Apple"] empty_state) in
  st_collection after_set !! "score" = Some (VNum 7)
  /\ List.filter (DB.key_is "score") (st_table after_set) = []
  /\ st_collection after_push !! "items" = Some (VRef 1)
  /\ st_heap after_push !! 1%nat = Some (OArr [VStr "Apple"] [])
  /\ List.filter (DB.key_is "items") (st_table after_push) = [].
Proof. vm_compute. repeat split; reflexivity. Qed.

(** C4.  In the SQLite provider [set] on a key without a row inserts
    nothing: after [set("p", 1)] and [set("q", 2)] on an empty table the
    table is still empty and [all()] returns an object with no property. *)
Theorem sqlite_all_after_two_sets_is_empty :
  let r := (SqliteProvider.set "p" (VNum 1) ;;
            SqliteProvider.set "q" (VNum 2) ;;
            SqliteProvider.all) empty_state in
  fst r = Ok (VRef 2)
  /\ st_heap (snd r) !! 2%nat = Some (OObj [])
  /\ st_table (snd r) = [].
Proof. vm_compute. repeat split; reflexivity. Qed.

(** The same calls on the PostgreSQL provider store and return both keys. *)
Example postgres_all_after_two_sets :
  let r := (PostgresProvider.set "p" (VNum 1) ;;
            PostgresProvider.set "q" (VNum 2) ;;
            PostgresProvider.all) empty_state in
  fst r = Ok (VRef 2)
  /\ st_heap (snd r) !! 2%nat = Some (OObj [("p", VNum 1); ("q", VNum 2)])
  /\ st_table (snd r) = [Row "p" (Some "1"); Row "q" (Some "2")].
Proof. vm_compute. repeat split; reflexivity. Qed.

(** ** init *)

Lemma for_each_load (rows : list row) (st : state) :
  for_each rows (fun row => Collection.set (row_key row) (column (row_value row))) st
  = (Ok tt, State (st_heap st) (load_rows rows (st_collection st)) (st_table st)).
Proof.
  revert st. induction rows as [|r rows IH]; intros st.
  - destruct st; reflexivity.
  - simpl. unfold bind. simpl. rewrite IH. reflexivity.
Qed.

Lemma init_loads_rows (st : state) :
  SqliteProvider.init st
    = (Ok tt, State (st_heap st) (load_rows (st_table st) (st_collection st)) (st_table st))
  /\ PostgresProvider.init st = SqliteProvider.init st.
Proof.
  split; [|reflexivity].
  unfold SqliteProvider.init, bind. simpl. apply for_each_load.
Qed.

Lemma column_not_object (text : option string) : Lodash.isObject (column text) = false.
Proof. now destruct text. Qed.

Lemma load_rows_no_object (rows : list row) (c : gmap string jsvalue) :
  (forall k v, c !! k = Some v -> Lodash.isObject v = false) ->
  forall k v, load_rows rows c !! k = Some v -> Lodash.isObject v = false.
Proof.
  revert c. induction rows as [|r rows IH]; intros c Hc k v; simpl.
  - apply Hc.
  - apply IH. intros k' v'.
    destruct (decide (row_key r = k')) as [->|Hne].
    + rewrite lookup_insert_eq. intros [= <-]. apply column_not_object.
    + rewrite lookup_insert_ne by exact Hne. apply Hc.
Qed.

(** After [init] on a new provider no cache entry is an object or an array,
    whatever the rows hold. *)
Lemma init_caches_no_object (rows : list row) (k : string) (v : jsvalue) :
  st_collection (snd (SqliteProvider.init (State [] ∅ rows))) !! k = Some v ->
  Lodash.isObject v = false.
Proof.
  rewrite (proj1 (init_loads_rows _)). simpl.
  apply load_rows_no_object. intros k' v'. rewrite lookup_empty. discriminate.
Qed.

(** C5.  [init] caches the text of the [value] column, not the document
    it encodes: over a table whose row for [user] holds the text of the
    document with [money] 100, both providers cache that text as a string,
    [get("user")] returns the string and [get("user.money")] returns [null],
    while [JSON.parse] of the text is an object with [money] 100. *)
Theorem init_caches_text_not_document :
  let sqlite := snd (SqliteProvider.init user_table) in
  let postgres := snd (PostgresProvider.init user_table) in
  st_collection sqlite !! "user" = Some (VStr user_text)
  /\ st_collection postgres !! "user" = Some (VStr user_text)
  /\ fst (SqliteProvider.get "user" VUndefined sqlite) = Ok (VStr user_text)
  /\ fst (PostgresProvider.get "user" VUndefined postgres) = Ok (VStr user_text)
  /\ fst (SqliteProvider.get "user.money" VUndefined sqlite) = Ok VNull
  /\ fst (PostgresProvider.get "user.money" VUndefined postgres) = Ok VNull
  /\ JSON.parse user_text [] = Ok (VRef 0, [OObj [("money", VNum 100)]]).
Proof. vm_compute. repeat split; reflexivity. Qed.

(** ** get *)

(** When the root of a dotted key is not cached, [get] returns [null] if it
    returns at all, whatever the default. *)
Lemma get_miss_dotted_null (key : string) (d : jsvalue) (st : state) :
  JS.includes "." key = true ->
  st_collection st !! first_segment (JS.split "." key) = None ->
  (fst (SqliteProvider.get key d st) = Ok VNull
   \/ exists e, fst (SqliteProvider.get key d st) = Throw e)
  /\ (fst (PostgresProvider.get key d st) = Ok VNull
      \/ exists e, fst (PostgresProvider.get key d st) = Throw e).
Proof.
  intros Hdot Hmiss.
  unfold SqliteProvider.get, PostgresProvider.get. rewrite Hdot.
  unfold bind, Collection.get, Collection.has, when. rewrite Hmiss. simpl.
  split.
  - match goal with
    | |- context [SqliteProvider.set key ?v st] =>
        destruct (SqliteProvider.set key v st) as [[r|e] st']
    end; [left; reflexivity | right; eexists; reflexivity].
  - match goal with
    | |- context [PostgresProvider.set key ?v st] =>
        destruct (PostgresProvider.set key v st) as [[r|e] st']
    end; [left; reflexivity | right; eexists; reflexivity].
Qed.

(** C6.  On a cache miss of a dotted key [get] stores the default and then
    answers from the document it read before storing it: on a new provider
    [get("user.items", "No Items Found")] returns [null] in both providers,
    and only a second [get] returns the default in the PostgreSQL one. *)
Theorem get_miss_on_dotted_key_returns_null :
  let sqlite := SqliteProvider.get "user.items" (VStr "No Items Found") empty_state in
  let postgres := PostgresProvider.get "user.items" (VStr "No Items Found") empty_state in
  fst sqlite = Ok VNull
  /\ fst postgres = Ok VNull
  /\ fst (PostgresProvider.get "user.items" VUndefined (snd postgres))
     = Ok (VStr "No Items Found").
Proof. vm_compute. repeat split; reflexivity. Qed.

(** For a key without a dot the default is read back after it is stored. *)
Example get_miss_on_root_key_returns_default :
  fst (SqliteProvider.get "user" (VStr "nobody") empty_state) = Ok (VStr "nobody")
  /\ fst (PostgresProvider.get "user" (VStr "nobody") empty_state) = Ok (VStr "nobody").
Proof. vm_compute. split; reflexivity. Qed.

(** ** push *)

(** When the value read before the loop is falsy, each pushed value is
    stored as a new one-element array, whatever the earlier iterations
    stored. *)
Lemma push_one_unset (key : string) (fetched v : jsvalue) :
  JS.truthy fetched = false ->
  SqliteProvider.push_one key fetched v
    = (let* array := new_array [v] in
       let* _ := SqliteProvider.set key array in ret tt)
  /\ PostgresProvider.push_one key fetched v
    = (let* array := new_array [v] in
       let* _ := PostgresProvider.set key array in ret tt).
Proof.
  intros Hfalsy.
  unfold SqliteProvider.push_one, PostgresProvider.push_one.
  rewrite Hfalsy. split; reflexivity.
Qed.

(** C7.  [push] reads the current value once, before its loop: on a new
    provider [push("k", 1, 2)] builds a one-element array for each value and
    the key ends as the array of the last value alone, in both providers,
    where the claim has both values. *)
Theorem push_two_values_on_unset_key_keeps_last :
  let sqlite := SqliteProvider.push "k" [VNum 1; VNum 2] empty_state in
  let postgres := PostgresProvider.push "k" [VNum 1; VNum 2] empty_state in
  fst sqlite = Ok (VRef 3)
  /\ st_heap (snd sqlite) !! 3%nat = Some (OArr [VNum 2] [])
  /\ fst postgres = Ok (VRef 3)
  /\ st_heap (snd postgres) !! 3%nat = Some (OArr [VNum 2] [])
  /\ st_table (snd postgres) = [Row "k" (Some "[2]")].
Proof. vm_compute. repeat split; reflexivity. Qed.

(** Pushing the two values in two calls appends. *)
Example postgres_push_twice :
  let r := (PostgresProvider.push "a.items" [VNum 1] ;;
            PostgresProvider.push "a.items" [VNum 2]) empty_state in
  fst r = Ok (VRef 1)
  /\ st_heap (snd r) !! 1%nat = Some (OArr [VNum 1; VNum 2] []).
Proof. vm_compute. split; reflexivity. Qed.

(** ** fetch *)

Lemma sqlite_fetch_discards (key : string) (d : jsvalue) (st : state) :
  SqliteProvider.fetch key d st = discard_result (SqliteProvider.get key d st).
Proof.
  unfold SqliteProvider.fetch, discard_result, bind.
  assert (Hsame : SqliteProvider.get key
                    match d with VUndefined => VStr "" | _ => d end st
                  = SqliteProvider.get key d st) by (destruct d; reflexivity).
  rewrite Hsame.
  destruct (SqliteProvider.get key d st) as [[a|e] st']; reflexivity.
Qed.

Lemma postgres_fetch_discards (key : string) (d : jsvalue) (st : state) :
  PostgresProvider.fetch key d st = discard_result (PostgresProvider.get key d st).
Proof.
  unfold PostgresProvider.fetch, discard_result.
  destruct (JS.truthy d) eqn:Ht.
  - unfold bind.
    destruct (PostgresProvider.get key d st) as [[a|e] st']; reflexivity.
  - assert (Hsame : PostgresProvider.get key VUndefined st
                    = PostgresProvider.get key d st).
    { unfold PostgresProvider.get, JS.or. rewrite Ht. reflexivity. }
    unfold bind. rewrite Hsame.
    destruct (PostgresProvider.get key d st) as [[a|e] st']; reflexivity.
Qed.

(** Whenever [fetch] returns, it returns [undefined]. *)
Lemma fetch_result_undefined (key : string) (d : jsvalue) (st : state) (v : jsvalue) :
  fst (SqliteProvider.fetch key d st) = Ok v
  \/ fst (PostgresProvider.fetch key d st) = Ok v ->
  v = VUndefined.
Proof.
  rewrite sqlite_fetch_discards, postgres_fetch_discards.
  unfold discard_result. simpl.
  intros [H|H].
  - destruct (fst (SqliteProvider.get key d st)); congruence.
  - destruct (fst (PostgresProvider.get key d st)); congruence.
Qed.

(** C8.  [fetch] runs [get] and returns nothing: after [set("k", 1)],
    [get("k")] returns 1 and [fetch("k")] returns [undefined], in both
    providers. *)
Theorem fetch_returns_undefined_where_get_returns_value :
  let sqlite := snd (SqliteProvider.set "k" (VNum 1) empty_state) in
  let postgres := snd (PostgresProvider.set "k" (VNum 1) empty_state) in
  fst (SqliteProvider.get "k" VUndefined sqlite) = Ok (VNum 1)
  /\ fst (SqliteProvider.fetch "k" VUndefined sqlite) = Ok VUndefined
  /\ fst (PostgresProvider.get "k" VUndefined postgres) = Ok (VNum 1)
  /\ fst (PostgresProvider.fetch "k" VUndefined postgres) = Ok VUndefined.
Proof. vm_compute. repeat split; reflexivity. Qed.

(** * Further properties *)

(** ** set and get of a key without a dot *)





(** ** Splitting and joining keys *)

Section SplitJoin.

Context (c : ascii).


Lemma join_cons (seg : string) (segs : list string) :
  segs <> [] -> JS.join c (seg :: segs) = seg +:+ String c (JS.join c segs).
Proof. destruct segs; [congruence|reflexivity]. Qed.



(** A key is its split joined again. *)
Lemma join_split (s : string) : JS.join c (JS.split c s) = s.
Proof.
  induction s as [|d s IH]; [reflexivity|].
  pose proof (split_not_nil c s) as Hne.
  cbn [JS.split].
  destruct (Ascii.eqb d c) eqn:Hd.
  - apply Ascii.eqb_eq in Hd. subst d.
    rewrite join_cons by exact Hne. rewrite IH. reflexivity.
  - destruct (JS.split c s) as [|seg segs]; [congruence|].
    destruct segs as [|seg' segs'].
    + cbn in *. now rewrite IH.
    + rewrite join_cons by discriminate. rewrite join_cons in IH by discriminate.
      rewrite <- IH. reflexivity.
Qed.

End SplitJoin.

(** ** Cells of the heap *)

Section Cells.








End Cells.




Lemma sqlite_set_unfold (key : string) (v : jsvalue) (st : state) :
  SqliteProvider.set key v st
  = let '(root, doc, h) := sqlite_cached key v st in
    sqlite_persist root doc (State h (<[root := doc]> (st_collection st)) (st_table st)).
Proof.
  unfold SqliteProvider.set, sqlite_cached.
  unfold bind at 1; simpl; unfold bind at 1.
  destruct (JS.truthy _); simpl;
    unfold bind at 1; unfold lodash_set, with_heap; simpl;
    try match goal with
        | |- context [Lodash.set ?h ?o ?p ?x] => destruct (Lodash.set h o p x)
        end;
    destruct (1 <? List.length (tail (JS.split "." key)))%nat; reflexivity.
Qed.

Lemma sqlite_persist_run (key : string) (doc : jsvalue) (st : state) :
  sqlite_persist key doc st
  = match JSON.stringify (st_heap st) doc with
    | Throw e => (Throw e, st)
    | Ok text =>
        (Ok (head (List.filter (DB.key_is key) (update_rows text key (st_table st)))),
         State (st_heap st) (st_collection st) (update_rows text key (st_table st)))
    end.
Proof.
  unfold sqlite_persist, bind, DB.select_by_key, DB.insert, DB.update,
    DB.on_table, JSON_stringify, ret. simpl.
  rewrite length_never_negative. simpl.
  destruct (JSON.stringify (st_heap st) doc) as [text|e]; [|destruct st]; reflexivity.
Qed.

(** Neither persisting sequence touches the heap or the collection. *)
Lemma persist_keeps_cache (key : string) (doc : jsvalue) (st : state) :
  (st_heap (snd (sqlite_persist key doc st)) = st_heap st
   /\ st_collection (snd (sqlite_persist key doc st)) = st_collection st)
  /\ (st_heap (snd (postgres_persist key doc st)) = st_heap st
      /\ st_collection (snd (postgres_persist key doc st)) = st_collection st).
Proof.
  rewrite sqlite_persist_run, postgres_persist_run.
  destruct (JSON.stringify (st_heap st) doc); simpl; repeat split; reflexivity.
Qed.

Lemma split_dotted (c : ascii) (s : string) :
  JS.includes c s = true -> List.tl (JS.split c s) <> [].
Proof.
  induction s as [|d s IH]; simpl; [discriminate|].
  pose proof (split_not_nil c s) as Hne.
  destruct (Ascii.eqb d c); simpl; [intros _; exact Hne|].
  intros Hs. specialize (IH Hs).
  destruct (JS.split c s) as [|seg segs]; [congruence|exact IH].
Qed.












(** ** delete *)

(** X4.  [delete(key)] removes exactly the cache entry and the rows stored
    under [key]: afterwards the key has no entry and no row, and every other
    key keeps its entry and its rows, in both providers. *)
Theorem delete_removes_exactly_key (key : string) (st : state) :
  removes_exactly SqliteProvider.delete key st
  /\ removes_exactly PostgresProvider.delete key st.
Proof.
  assert (Hsqlite : removes_exactly SqliteProvider.delete key st).
  { unfold removes_exactly.
    rewrite (proj1 (delete_unfold key st)). simpl.
    split; [reflexivity|]. split; [apply lookup_delete_eq|].
    split; [apply filter_deleted_key|]. split; [reflexivity|].
    intros k Hk. split.
    - apply lookup_delete_ne. congruence.
    - now apply filter_other_key. }
  split; [exact Hsqlite|].
  unfold removes_exactly in *.
  rewrite (proj2 (delete_unfold key st)). exact Hsqlite.
Qed.

Lemma delete_removes_exactly_key_witness :
  removes_exactly SqliteProvider.delete "a" nested_key_state
  /\ removes_exactly PostgresProvider.delete "a" nested_key_state.
Proof. apply (delete_removes_exactly_key "a" nested_key_state). Defined.

(** X5.  After [delete] of a key without a dot, [has] of the key answers
    [false], in both providers. *)
Theorem delete_then_has (key : string) (st : state) :
  JS.includes "." key = false ->
  fst ((SqliteProvider.delete key ;; SqliteProvider.has key) st) = Ok false
  /\ fst ((PostgresProvider.delete key ;; PostgresProvider.has key) st) = Ok false.
Proof.
  intros Hdot.
  unfold bind. rewrite (proj2 (delete_unfold key st)), (proj1 (delete_unfold key st)).
  unfold SqliteProvider.has, PostgresProvider.has. rewrite Hdot.
  unfold Collection.has. simpl. rewrite lookup_delete_eq.
  split; reflexivity.
Qed.

Lemma delete_then_has_witness :
  JS.includes "." "a" = false
  /\ fst ((SqliteProvider.delete "a" ;; SqliteProvider.has "a") nested_key_state) = Ok false
  /\ fst ((PostgresProvider.delete "a" ;; PostgresProvider.has "a") nested_key_state) = Ok false.
Proof.
  split; [reflexivity|].
  apply (delete_then_has "a" nested_key_state). reflexivity.
Defined.

(** ** init *)

Lemma load_rows_lookup (rows : list row) (c : gmap string jsvalue) (k : string) :
  load_rows rows c !! k
  = match last_row_value k rows with
    | Some text => Some (column text)
    | None => c !! k
    end.
Proof.
  revert c. induction rows as [|r rows IH]; intros c; simpl; [reflexivity|].
  rewrite IH. destruct (last_row_value k rows); [reflexivity|].
  unfold DB.key_is. destruct (String.eqb (row_key r) k) eqn:Hk.
  - apply String.eqb_eq in Hk. subst k. apply lookup_insert_eq.
  - apply String.eqb_neq in Hk. now apply lookup_insert_ne.
Qed.

(** X6.  [init] returns, leaves the heap and the table as they are, and
    sets the cache entry of every key that has a row to the text of the value
    column of its last row, as a string ([null] for a NULL column); keys
    without a row keep the entry they had.  Both providers. *)
Theorem init_caches_last_row (st : state) (k : string) :
  let st' := snd (SqliteProvider.init st) in
  PostgresProvider.init st = SqliteProvider.init st
  /\ fst (SqliteProvider.init st) = Ok tt
  /\ st_heap st' = st_heap st
  /\ st_table st' = st_table st
  /\ st_collection st' !! k
     = match last_row_value k (st_table st) with
       | Some text => Some (column text)
       | None => st_collection st !! k
       end.
Proof.
  rewrite (proj1 (init_loads_rows st)). simpl.
  split; [apply init_loads_rows|].
  repeat split. apply load_rows_lookup.
Qed.

Lemma load_rows_twice (rows : list row) (c : gmap string jsvalue) :
  load_rows rows (load_rows rows c) = load_rows rows c.
Proof.
  apply map_eq. intros k. rewrite !load_rows_lookup.
  now destruct (last_row_value k rows).
Qed.

(** X7.  Running [init] a second time changes nothing: the outcome and
    the state are those of the first run. *)
Theorem init_twice (st : state) :
  (SqliteProvider.init ;; SqliteProvider.init) st = SqliteProvider.init st
  /\ (PostgresProvider.init ;; PostgresProvider.init) st = PostgresProvider.init st.
Proof.
  assert (Hs : (SqliteProvider.init ;; SqliteProvider.init) st = SqliteProvider.init st).
  { unfold bind. rewrite (proj1 (init_loads_rows st)).
    rewrite (proj1 (init_loads_rows _)). simpl. now rewrite load_rows_twice. }
  split; [exact Hs|].
  unfold bind in *. rewrite !(proj2 (init_loads_rows _)). exact Hs.
Qed.

(** ** all *)

Section PropsOther.

Context (k k' : string) (Hne : k' <> k).

Lemma props_lookup_replace_other (v : jsvalue) (ps : list (string * jsvalue)) :
  props_lookup k (props_replace k' v ps) = props_lookup k ps.
Proof.
  induction ps as [|[k0 v0] ps IH]; simpl; [reflexivity|].
  destruct (String.eqb k0 k') eqn:H0; simpl.
  - apply String.eqb_eq in H0. subst k0.
    now rewrite (proj2 (String.eqb_neq k' k) Hne).
  - now rewrite IH.
Qed.

Lemma props_lookup_app_other (v : jsvalue) (ps : list (string * jsvalue)) :
  props_lookup k (ps ++ [(k', v)]) = props_lookup k ps.
Proof.
  induction ps as [|[k0 v0] ps IH]; simpl.
  - now rewrite (proj2 (String.eqb_neq k' k) Hne).
  - now rewrite IH.
Qed.

Lemma props_lookup_insert_index_other (i : nat) (v : jsvalue)
    (ps : list (string * jsvalue)) :
  props_lookup k (props_insert_index i k' v ps) = props_lookup k ps.
Proof.
  induction ps as [|[k0 v0] ps IH]; simpl.
  - now rewrite (proj2 (String.eqb_neq k' k) Hne).
  - destruct (JS.index_of_key k0) as [j|]; [destruct (j <? i)%nat|]; simpl;
      rewrite ?IH, ?(proj2 (String.eqb_neq k' k) Hne); reflexivity.
Qed.

(** Assigning one property leaves every other property as it was. *)
Lemma props_lookup_set_other (ordered : bool) (v : jsvalue)
    (ps : list (string * jsvalue)) :
  props_lookup k (props_set ordered k' v ps) = props_lookup k ps.
Proof.
  unfold props_set. destruct (props_lookup k' ps).
  - apply props_lookup_replace_other.
  - destruct (JS.index_of_key k'); [destruct ordered|];
      auto using props_lookup_insert_index_other, props_lookup_app_other.
Qed.

End PropsOther.

(** The properties that are set after an assignment. *)
Lemma props_set_keys (ordered : bool) (k k' : string) (v : jsvalue)
    (ps : list (string * jsvalue)) :
  is_Some (props_lookup k (props_set ordered k' v ps))
  <-> k = k' \/ is_Some (props_lookup k ps).
Proof.
  destruct (decide (k' = k)) as [->|Hne].
  - rewrite props_lookup_set. split; eauto.
  - rewrite props_lookup_set_other by exact Hne. split; [auto|].
    intros [->|H]; [congruence|exact H].
Qed.

Lemma all_unfold :
  SqliteProvider.all
  = (let* fetched := DB.select_all in
     let* data := parse_rows fetched [] in
     Object_fromEntries data)
  /\ PostgresProvider.all = SqliteProvider.all.
Proof. split; reflexivity. Qed.

Lemma JSON_parse_frame (text : option string) (st : state) :
  st_collection (snd (JSON_parse text st)) = st_collection st
  /\ st_table (snd (JSON_parse text st)) = st_table st.
Proof.
  destruct text as [s|]; simpl; [|split; reflexivity].
  destruct (JSON.parse s (st_heap st)) as [[v h]|e]; split; reflexivity.
Qed.

(** The loop leaves cache and table alone, and when it ends normally the
    map holds the keys it had and the keys of the rows. *)
Lemma parse_rows_spec (rows : list row) :
  forall (data : list (string * jsvalue)) (st : state),
    st_collection (snd (parse_rows rows data st)) = st_collection st
    /\ st_table (snd (parse_rows rows data st)) = st_table st
    /\ forall data', fst (parse_rows rows data st) = Ok data' ->
         forall k, is_Some (props_lookup k data')
                   <-> k ∈ List.map row_key rows \/ is_Some (props_lookup k data).
Proof.
  induction rows as [|o rows IH]; intros data st.
  - simpl. split; [reflexivity|]. split; [reflexivity|].
    intros data' [= <-] k. split.
    + intros Hk. right. exact Hk.
    + intros [Hk|Hk]; [now apply elem_of_nil in Hk|exact Hk].
  - cbn [parse_rows]. unfold bind.
    destruct (JSON_parse_frame (row_value o) st) as [Hc Ht].
    destruct (JSON_parse (row_value o) st) as [[v|e] st1]; simpl in Hc, Ht.
    + destruct (IH (Map_set (row_key o) v data) st1) as (Hc' & Ht' & Hkeys).
      rewrite Hc', Ht', Hc, Ht. split; [reflexivity|]. split; [reflexivity|].
      intros data' Hok k. rewrite (Hkeys data' Hok k).
      unfold Map_set. rewrite props_set_keys. cbn [List.map].
      rewrite elem_of_cons. tauto.
    + simpl. rewrite Hc, Ht. split; [reflexivity|]. split; [reflexivity|].
      intros data' Hok. discriminate.
Qed.

Lemma fromEntries_keys (data : list (string * jsvalue)) :
  forall (ps : list (string * jsvalue)) (k : string),
    is_Some (props_lookup k
               (List.fold_left (fun ps '(k, v) => props_set true k v ps) data ps))
    <-> is_Some (props_lookup k data) \/ is_Some (props_lookup k ps).
Proof.
  induction data as [|[k0 v0] data IH]; intros ps k; simpl.
  - split; [auto|]. intros [[x Hx]|H]; [discriminate|exact H].
  - rewrite IH, props_set_keys.
    destruct (String.eqb k0 k) eqn:Hk.
    + apply String.eqb_eq in Hk. subst k0. split; eauto.
    + apply String.eqb_neq in Hk. split.
      * intros [H|[H|H]]; [left; exact H|congruence|right; exact H].
      * intros [H|H]; [left; exact H|right; right; exact H].
Qed.

(** X8.  [all()] reads the table and never the cache: it leaves cache and
    table unchanged, and when it returns, the result is a new object with
    one property for every key that has a row and no other property.  Both
    providers. *)
Theorem all_lists_row_keys (st : state) :
  lists_row_keys SqliteProvider.all st /\ lists_row_keys PostgresProvider.all st.
Proof.
  assert (Hs : lists_row_keys SqliteProvider.all st).
  { unfold lists_row_keys. rewrite (proj1 all_unfold).
    unfold bind at 1 3 5 6. unfold DB.select_all. cbv beta iota.
    unfold bind.
    destruct (parse_rows_spec (st_table st) [] st) as (Hc & Ht & Hkeys).
    destruct (parse_rows (st_table st) [] st) as [[data|e] st1]; simpl in *.
    - unfold Object_fromEntries, with_heap, alloc. simpl.
      split; [exact Hc|]. split; [exact Ht|].
      intros r [= <-]. eexists _, _. split; [reflexivity|].
      split.
      + rewrite lookup_app_r by lia. rewrite Nat.sub_diag. reflexivity.
      + intros k. rewrite fromEntries_keys, (Hkeys data eq_refl k).
        split.
        * intros [H|[x Hx]]; [|discriminate]. destruct H as [H|[x Hx]]; [exact H|discriminate].
        * intros H. left. left. exact H.
    - split; [exact Hc|]. split; [exact Ht|]. intros r. discriminate. }
  split; [exact Hs|]. now rewrite (proj2 all_unfold).
Qed.

Lemma all_lists_row_keys_witness :
  lists_row_keys SqliteProvider.all user_table
  /\ lists_row_keys PostgresProvider.all user_table.
Proof. apply (all_lists_row_keys user_table). Defined.

(** X9.  After [delete(key)], [all()] has no property [key]: whenever it
    returns, the object it returns does not list the deleted key.  Both
    providers. *)
Theorem delete_then_all (key : string) (st : state) (r : jsvalue) (st' : state) :
  (SqliteProvider.delete key ;; SqliteProvider.all) st = (Ok r, st')
  \/ (PostgresProvider.delete key ;; PostgresProvider.all) st = (Ok r, st') ->
  get_prop (st_heap st') r key = VUndefined
  /\ has_prop (st_heap st') r key = false.
Proof.
  intros Hrun.
  assert (Hall : SqliteProvider.all (snd (SqliteProvider.delete key st)) = (Ok r, st')).
  { destruct Hrun as [H|H]; unfold bind in H.
    - rewrite (proj1 (delete_unfold key st)) in *. exact H.
    - rewrite (proj2 (delete_unfold key st)), (proj2 all_unfold) in H.
      rewrite (proj1 (delete_unfold key st)) in *. exact H. }
  destruct (proj1 (all_lists_row_keys (snd (SqliteProvider.delete key st))))
    as (_ & _ & Hkeys).
  rewrite Hall in Hkeys. simpl in Hkeys.
  destruct (Hkeys r eq_refl) as (l & ps & -> & Hl & Hps).
  assert (Hnone : props_lookup key ps = None).
  { destruct (props_lookup key ps) eqn:Hk; [|reflexivity].
    exfalso. assert (Hin : key ∈ List.map row_key (st_table (snd (SqliteProvider.delete key st))))
      by (apply Hps; eauto).
    rewrite (proj1 (delete_unfold key st)) in Hin. simpl in Hin.
    apply list_elem_of_In, List.in_map_iff in Hin. destruct Hin as (row & Hrow & Hin).
    apply List.filter_In in Hin. destruct Hin as [_ Hnot].
    unfold DB.key_is in Hnot. rewrite Hrow, String.eqb_refl in Hnot. discriminate. }
  unfold get_prop, has_prop. rewrite Hl, Hnone. split; reflexivity.
Qed.

Lemma delete_then_all_witness :
  exists r st',
    ((SqliteProvider.delete "a" ;; SqliteProvider.all) nested_key_state = (Ok r, st')
     \/ (PostgresProvider.delete "a" ;; PostgresProvider.all) nested_key_state = (Ok r, st'))
    /\ get_prop (st_heap st') r "a" = VUndefined
    /\ has_prop (st_heap st') r "a" = false.
Proof.
  eexists _, _. split; [left; vm_compute; reflexivity|].
  eapply (delete_then_all "a" nested_key_state). left. vm_compute. reflexivity.
Defined.

(** ** Reading a cached root *)



(** ** get on a miss of a key without a dot *)

Lemma stringify_primitive (h : heap) (v : jsvalue) :
  Lodash.isObject v = false -> exists text, JSON.stringify h v = Ok text.
Proof.
  intros Hv. unfold JSON.stringify. destruct v; try discriminate; simpl; eauto.
Qed.

(** X11.  In the PostgreSQL provider, [get] of an uncached key without a
    dot, with a default that is not an object, stores the default ([""]
    for a falsy one) and returns it: afterwards the cache entry is the
    default and the key is written through to the table. *)
Theorem postgres_get_miss_stores_default (key : string) (d : jsvalue) (st : state) :
  JS.includes "." key = false ->
  st_collection st !! key = None ->
  Lodash.isObject d = false ->
  let stored := JS.or d (VStr "") in
  let st' := snd (PostgresProvider.get key d st) in
  fst (PostgresProvider.get key d st) = Ok stored
  /\ st_collection st' = <[key := stored]> (st_collection st)
  /\ written_through key st'.
Proof.
  intros Hdot Hmiss Hd stored st'.
  assert (Hstored : Lodash.isObject stored = false).
  { subst stored. unfold JS.or. destruct (JS.truthy d); [exact Hd|reflexivity]. }
  assert (Hroot : first_segment (JS.split "." key) = key)
    by (now rewrite (split_no_sep "." key Hdot)).
  destruct (PostgresProvider.set key stored st) as [r st1] eqn:Hset.
  pose proof Hset as Hrun.
  rewrite postgres_set_unfold in Hrun. unfold postgres_cached in Hrun.
  rewrite Hdot, Hmiss in Hrun. simpl in Hrun.
  rewrite postgres_persist_run in Hrun. simpl in Hrun.
  match type of Hrun with
  | context [JSON.stringify ?h stored] =>
      destruct (stringify_primitive h stored Hstored) as [text Htext];
      rewrite Htext in Hrun
  end.
  injection Hrun as Hr Hst1.
  rewrite <- Hr in Hset.
  destruct (postgres_set_writes_through key stored st st1 _ Hset) as [Hwt _].
  rewrite Hroot in Hwt.
  assert (Hget : PostgresProvider.get key d st = (Ok stored, st1)).
  { unfold PostgresProvider.get. rewrite Hdot.
    unfold bind at 1. unfold Collection.has at 1. rewrite Hmiss. simpl.
    unfold bind at 1. unfold bind at 1. fold stored. rewrite Hset. simpl.
    unfold Collection.get. rewrite <- Hst1. simpl. now rewrite lookup_insert_eq. }
  subst st'. rewrite Hget. simpl.
  split; [reflexivity|]. split; [|exact Hwt].
  now rewrite <- Hst1.
Qed.

Lemma postgres_get_miss_stores_default_witness :
  JS.includes "." "user" = false
  /\ st_collection empty_state !! "user" = None
  /\ Lodash.isObject (VStr "nobody") = false
  /\ let stored := JS.or (VStr "nobody") (VStr "") in
     let st' := snd (PostgresProvider.get "user" (VStr "nobody") empty_state) in
     fst (PostgresProvider.get "user" (VStr "nobody") empty_state) = Ok stored
     /\ st_collection st' = <["user" := stored]> (st_collection empty_state)
     /\ written_through "user" st'.
Proof.
  split; [reflexivity|]. split; [reflexivity|]. split; [reflexivity|].
  apply (postgres_get_miss_stores_default "user" (VStr "nobody") empty_state);
    reflexivity.
Defined.

(** X12.  In the SQLite provider, [get] of an uncached key without a dot,
    with a default that is not an object, caches the default ([""] when it
    is omitted) and returns it, and the table keeps the same keys, row for
    row: the default is not inserted. *)
Theorem sqlite_get_miss_caches_default (key : string) (d : jsvalue) (st : state) :
  JS.includes "." key = false ->
  st_collection st !! key = None ->
  Lodash.isObject d = false ->
  let stored := match d with VUndefined => VStr "" | _ => d end in
  let st' := snd (SqliteProvider.get key d st) in
  fst (SqliteProvider.get key d st) = Ok stored
  /\ st_collection st' = <[key := stored]> (st_collection st)
  /\ List.map row_key (st_table st') = List.map row_key (st_table st).
Proof.
  intros Hdot Hmiss Hd stored st'.
  assert (Hstored : Lodash.isObject stored = false) by (subst stored; now destruct d).
  destruct (SqliteProvider.set key stored st) as [r st1] eqn:Hset.
  pose proof (sqlite_set_keeps_row_keys key stored st) as Hkeys.
  rewrite Hset in Hkeys. simpl in Hkeys.
  pose proof Hset as Hrun.
  rewrite sqlite_set_unfold in Hrun. unfold sqlite_cached in Hrun.
  rewrite (split_no_sep "." key Hdot) in Hrun. simpl in Hrun.
  rewrite Hmiss in Hrun. simpl in Hrun.
  rewrite sqlite_persist_run in Hrun. simpl in Hrun.
  match type of Hrun with
  | context [JSON.stringify ?h stored] =>
      destruct (stringify_primitive h stored Hstored) as [text Htext];
      rewrite Htext in Hrun
  end.
  injection Hrun as Hr Hst1.
  assert (Hget : SqliteProvider.get key d st = (Ok stored, st1)).
  { unfold SqliteProvider.get. rewrite Hdot.
    unfold bind at 1. unfold Collection.has at 1. rewrite Hmiss. simpl.
    unfold bind at 1. unfold bind at 1. fold stored. rewrite Hset, <- Hr. simpl.
    unfold Collection.get. rewrite <- Hst1. simpl. now rewrite lookup_insert_eq. }
  subst st'. rewrite Hget. simpl.
  split; [reflexivity|]. split; [|exact Hkeys].
  now rewrite <- Hst1.
Qed.

Lemma sqlite_get_miss_caches_default_witness :
  JS.includes "." "user" = false
  /\ st_collection empty_state !! "user" = None
  /\ Lodash.isObject VUndefined = false
  /\ let stored := VStr "" in
     let st' := snd (SqliteProvider.get "user" VUndefined empty_state) in
     fst (SqliteProvider.get "user" VUndefined empty_state) = Ok stored
     /\ st_collection st' = <["user" := stored]> (st_collection empty_state)
     /\ List.map row_key (st_table st') = List.map row_key (st_table empty_state).
Proof.
  split; [reflexivity|]. split; [reflexivity|]. split; [reflexivity|].
  apply (sqlite_get_miss_caches_default "user" VUndefined empty_state); reflexivity.
Defined.

(** ** Where the two [set] methods agree *)



(** ** Setting a property of a cached object *)

Lemma get_set_prop_other (h : heap) (l : nat) (ps : list (string * jsvalue))
    (k k' : string) (v : jsvalue) :
  h !! l = Some (OObj ps) -> k' <> k ->
  get_prop (set_prop h l k' v) (VRef l) k = get_prop h (VRef l) k.
Proof.
  intros Hl Hne. pose proof (lookup_lt_Some _ _ _ Hl) as Hlt.
  unfold set_prop, get_prop. rewrite Hl.
  rewrite list_lookup_insert_eq by exact Hlt.
  now rewrite props_lookup_set_other.
Qed.

(** X14.  In the PostgreSQL provider, setting [a.b] when the cached
    document of [a] is a plain object writes into that object: it stays the
    cache entry of [a], its property [b] becomes the value, and every other
    property keeps its value, whether the call returned or threw. *)
Theorem postgres_set_keeps_other_properties (a b : string) (v : jsvalue)
    (st : state) (l : nat) (ps : list (string * jsvalue)) :
  JS.includes "." a = false -> JS.includes "." b = false ->
  st_collection st !! a = Some (VRef l) ->
  st_heap st !! l = Some (OObj ps) ->
  let st' := snd (PostgresProvider.set (a +:+ String "." b) v st) in
  st_collection st' !! a = Some (VRef l)
  /\ get_prop (st_heap st') (VRef l) b = v
  /\ forall k, k <> b -> get_prop (st_heap st') (VRef l) k = get_prop (st_heap st) (VRef l) k.
Proof.
  intros Ha Hb Hroot Hl st'. subst st'.
  rewrite postgres_set_unfold. unfold postgres_cached.
  rewrite includes_app_sep, (split_app_sep "." a b Ha), (split_no_sep "." b Hb).
  simpl. rewrite Hroot. simpl.
  match goal with
  | |- context [postgres_persist ?k ?d ?s] =>
      destruct (proj2 (persist_keeps_cache k d s)) as [Hh Hc]
  end.
  rewrite Hh, Hc. simpl. rewrite lookup_insert_eq.
  split; [reflexivity|]. split.
  - apply get_set_prop. rewrite Hl. eauto.
  - intros k Hk. apply (get_set_prop_other _ _ ps); [exact Hl|congruence].
Qed.

Lemma postgres_set_keeps_other_properties_witness :
  let st := State [OObj [("money", VNum 100)]] (<["user" := VRef 0]> ∅) [] in
  JS.includes "." "user" = false /\ JS.includes "." "age" = false
  /\ st_collection st !! "user" = Some (VRef 0)
  /\ st_heap st !! 0%nat = Some (OObj [("money", VNum 100)])
  /\ let st' := snd (PostgresProvider.set ("user" +:+ String "." "age") (VNum 30) st) in
     st_collection st' !! "user" = Some (VRef 0)
     /\ get_prop (st_heap st') (VRef 0) "age" = VNum 30
     /\ forall k, k <> "age" ->
          get_prop (st_heap st') (VRef 0) k = get_prop (st_heap st) (VRef 0) k.
Proof.
  intros st.
  split; [reflexivity|]. split; [reflexivity|]. split; [reflexivity|].
  split; [reflexivity|].
  apply (postgres_set_keeps_other_properties "user" "age" (VNum 30) st 0
           [("money", VNum 100)]); reflexivity.
Defined.

(** ** fetch *)

(** X15.  [fetch] changes the heap, the cache and the table exactly as
    [get] with the same arguments does, throws when [get] throws, and
    otherwise returns [undefined].  Both providers. *)
Theorem fetch_is_get_without_result (key : string) (d : jsvalue) (st : state) :
  SqliteProvider.fetch key d st = discard_result (SqliteProvider.get key d st)
  /\ PostgresProvider.fetch key d st = discard_result (PostgresProvider.get key d st).
Proof. split; [apply sqlite_fetch_discards | apply postgres_fetch_discards]. Qed.

(** ** Keys *)

(** X16.  A dotted key is its root, a dot, and the path [get] and [has]
    resolve: the first segment of the split and the rest joined again make
    up the key. *)
Theorem key_is_root_dot_path (key : string) :
  JS.includes "." key = true ->
  first_segment (JS.split "." key)
    +:+ String "." (JS.join "." (List.tl (JS.split "." key)))
  = key.
Proof.
  intros Hdot.
  pose proof (join_split "." key) as Hjoin.
  pose proof (split_dotted "." key Hdot) as Hne.
  destruct (JS.split "." key) as [|root segs]; [now simpl in Hne|].
  simpl in Hne |- *. now rewrite join_cons in Hjoin by exact Hne.
Qed.

Lemma key_is_root_dot_path_witness :
  JS.includes "." "user.items.0" = true
  /\ first_segment (JS.split "." "user.items.0")
       +:+ String "." (JS.join "." (List.tl (JS.split "." "user.items.0")))
     = "user.items.0".
Proof.
  split; [reflexivity|].
  apply (key_is_root_dot_path "user.items.0"). reflexivity.
Defined.

(** ** push *)

Section PushArray.

Context (key : string) (l : nat).
Hypothesis Hdot : JS.includes "." key = false.
Hypothesis Hname : JS.index_of_key key = None.





Lemma get_cached_value (x : jsvalue) (st : state) (d : jsvalue) :
  st_collection st !! key = Some x ->
  SqliteProvider.get key d st = (Ok x, st)
  /\ PostgresProvider.get key d st = (Ok x, st).
Proof.
  intros Hc.
  unfold SqliteProvider.get, PostgresProvider.get. rewrite Hdot.
  unfold bind, Collection.has, Collection.get, when. rewrite Hc. simpl.
  rewrite ?Hc. split; reflexivity.
Qed.


End PushArray.



Example push_appends_example :
  let r := PostgresProvider.push "items" [VStr "Banana"; VStr "Magic Book"] items_state in
  fst r = Ok (VRef 0)
  /\ st_heap (snd r) !! 0%nat
     = Some (OArr [VStr "Apple"; VStr "Banana"; VStr "Magic Book"] [("items", VRef 0)]).
Proof. vm_compute. split; reflexivity. Qed.

(** X18.  [push] of one value on a key without a dot whose cache entry is a
    truthy value that is not an object or array replaces the entry by a new
    two-element array of the old value and the pushed one.  Both
    providers. *)
Theorem push_wraps_cached_scalar (key : string) (x v : jsvalue) (st : state) :
  JS.includes "." key = false ->
  st_collection st !! key = Some x ->
  JS.truthy x = true -> Lodash.isObject x = false ->
  wraps_scalar SqliteProvider.push key x v st
  /\ wraps_scalar PostgresProvider.push key x v st.
Proof.
  intros Hdot Hc Htruthy Hprim.
  assert (Harr : forall h, Lodash.isArray h x = false) by (intros h; now destruct x).
  assert (Hset : forall h, Lodash.set h x (Lodash.PStr key) (VRef (List.length (st_heap st)))
                           = (x, h)) by (intros h; now destruct x).
  set (l := List.length (st_heap st)).
  set (st1 := State (st_heap st ++ [OArr [x; v] []]) (st_collection st) (st_table st)).
  destruct (get_cached_value key Hdot x st VUndefined Hc) as [Hgs Hgp].
  assert (Hs : st_collection (snd (SqliteProvider.set key (VRef l) st1)) !! key = Some (VRef l)
               /\ st_heap (snd (SqliteProvider.set key (VRef l) st1)) = st_heap st1).
  { rewrite sqlite_set_unfold. unfold sqlite_cached.
    rewrite (split_no_sep "." key Hdot). simpl. rewrite Hc. simpl. rewrite Htruthy.
    fold l. rewrite Hset.
    match goal with
    | |- context [sqlite_persist ?k ?d ?s] =>
        destruct (proj1 (persist_keeps_cache k d s)) as [Hh Hcc]
    end.
    rewrite Hh, Hcc. simpl. now rewrite lookup_insert_eq. }
  assert (Hp : st_collection (snd (PostgresProvider.set key (VRef l) st1)) !! key = Some (VRef l)
               /\ st_heap (snd (PostgresProvider.set key (VRef l) st1)) = st_heap st1).
  { rewrite postgres_set_unfold. unfold postgres_cached.
    rewrite Hdot. simpl. rewrite Hc. simpl. rewrite Htruthy.
    fold l. rewrite Hset.
    match goal with
    | |- context [postgres_persist ?k ?d ?s] =>
        destruct (proj2 (persist_keeps_cache k d s)) as [Hh Hcc]
    end.
    rewrite Hh, Hcc. simpl. now rewrite lookup_insert_eq. }
  split.
  - unfold wraps_scalar, SqliteProvider.push. fold l.
    unfold bind. rewrite Hgs. cbn [for_each].
    unfold bind, SqliteProvider.push_one. rewrite Htruthy. cbn [negb]. cbv iota.
    unfold bind, read_heap, new_array, with_heap, alloc. cbv beta. rewrite Harr.
    cbn [negb fst snd]. cbv beta iota. fold l. fold st1.
    destruct Hs as [Hsc Hsh].
    destruct (SqliteProvider.set key (VRef l) st1) as [[r|e] st2]; simpl in Hsc, Hsh.
    + unfold ret. cbv beta iota.
      rewrite (proj1 (get_cached_value key Hdot (VRef l) st2 VUndefined Hsc)).
      simpl. split; [exact Hsc|]. split; [exact Hsh|]. intros r' [= <-]. reflexivity.
    + simpl. split; [exact Hsc|]. split; [exact Hsh|]. intros r'. discriminate.
  - unfold wraps_scalar, PostgresProvider.push. fold l.
    unfold bind. rewrite Hgp. cbn [for_each].
    unfold bind, PostgresProvider.push_one. rewrite Htruthy. cbn [negb]. cbv iota.
    unfold bind, read_heap, new_array, with_heap, alloc. cbv beta. rewrite Harr.
    cbn [negb fst snd]. cbv beta iota. fold l. fold st1.
    destruct Hp as [Hpc Hph].
    destruct (PostgresProvider.set key (VRef l) st1) as [[r|e] st2]; simpl in Hpc, Hph.
    + unfold ret. cbv beta iota.
      rewrite (proj2 (get_cached_value key Hdot (VRef l) st2 VUndefined Hpc)).
      simpl. split; [exact Hpc|]. split; [exact Hph|]. intros r' [= <-]. reflexivity.
    + simpl. split; [exact Hpc|]. split; [exact Hph|]. intros r'. discriminate.
Qed.

Lemma push_wraps_cached_scalar_witness :
  let st := State [] (<["armour" := VStr "Chestplate"]> ∅) [] in
  JS.includes "." "armour" = false
  /\ st_collection st !! "armour" = Some (VStr "Chestplate")
  /\ JS.truthy (VStr "Chestplate") = true
  /\ Lodash.isObject (VStr "Chestplate") = false
  /\ wraps_scalar SqliteProvider.push "armour" (VStr "Chestplate") (VStr "Helmet") st
  /\ wraps_scalar PostgresProvider.push "armour" (VStr "Chestplate") (VStr "Helmet") st.
Proof.
  intros st.
  split; [reflexivity|]. split; [reflexivity|]. split; [reflexivity|].
  split; [reflexivity|].
  apply (push_wraps_cached_scalar "armour" (VStr "Chestplate") (VStr "Helmet") st);
    reflexivity.
Defined.

(** ** has on an uncached root *)




(** ** The table after set *)

(** X20.  The SQLite [set] never adds a row: whatever the key, the value
    and the state, and whether it returns or throws, the table afterwards
    has the same keys, row for row, as before. *)
Theorem sqlite_set_adds_no_row (key : string) (v : jsvalue) (st : state) :
  List.map row_key (st_table (snd (SqliteProvider.set key v st)))
  = List.map row_key (st_table st).
Proof. apply sqlite_set_keeps_row_keys. Qed.





(** X23.  [get] of a dotted key whose root is not cached never returns
    the default: in both providers it returns [null] or throws, whatever the
    default and the rest of the state. *)
Theorem get_miss_of_dotted_key (key : string) (d : jsvalue) (st : state) :
  JS.includes "." key = true ->
  st_collection st !! first_segment (JS.split "." key) = None ->
  (fst (SqliteProvider.get key d st) = Ok VNull
   \/ exists e, fst (SqliteProvider.get key d st) = Throw e)
  /\ (fst (PostgresProvider.get key d st) = Ok VNull
      \/ exists e, fst (PostgresProvider.get key d st) = Throw e).
Proof. apply get_miss_dotted_null. Qed.

Lemma get_miss_of_dotted_key_witness :
  JS.includes "." "user.items" = true
  /\ st_collection empty_state !! first_segment (JS.split "." "user.items") = None
  /\ (fst (SqliteProvider.get "user.items" (VStr "none") empty_state) = Ok VNull
      \/ exists e, fst (SqliteProvider.get "user.items" (VStr "none") empty_state) = Throw e)
  /\ (fst (PostgresProvider.get "user.items" (VStr "none") empty_state) = Ok VNull
      \/ exists e, fst (PostgresProvider.get "user.items" (VStr "none") empty_state) = Throw e).
Proof.
  split; [reflexivity|]. split; [reflexivity|].
  apply (get_miss_of_dotted_key "user.items" (VStr "none") empty_state); reflexivity.
Defined.
